(** * podbackend: the bookmark-to-podcast pipeline of [server.js]

    A shallow embedding of the pipeline functions of [src/server.js]
    ([axiosWithRetry], [generateSummary], [generateConversationalScript],
    [generateSpeech], [generatePodcastAudio], [generateSummaryAndPodcast])
    and the properties the design document states about them.

    - JavaScript strings are sequences of UTF-16 code units: [list N].
    - [async] functions that may throw are computations in a state and
      exception monad [M]; [try]/[catch] is [try_catch].
    - The network (axios, Gemini, ElevenLabs), the cheerio library, the
      clock used by [toLocaleDateString] and disk faults are an environment
      [Env] of oracles.  Every oracle takes the logical time of the call, so
      a collaborator may answer differently each time it is asked.
    - [console.log] / [console.error] are not modelled. *)

From Stdlib Require Import List String Ascii NArith Bool Arith Lia.
From Stdlib Require Strings.Byte.
Import ListNotations.

Set Implicit Arguments.

(* ================================================================== *)
(** * JavaScript strings *)
(* ================================================================== *)

Module Js.

(** A string value: its UTF-16 code units. *)
Definition jsstring := list N.

Definition code (a : ascii) : N := N_of_ascii a.

(** An ASCII literal of the source. *)
Fixpoint lit (s : string) : jsstring :=
  match s with
  | EmptyString => []
  | String a r => code a :: lit r
  end.

(** The double quote character, U+0022. *)
Definition dq : jsstring := [34%N].
(** [q s] is [s] between double quotes. *)
Definition q (s : jsstring) : jsstring := dq ++ s ++ dq.

Definition LF : N := 10%N.
Definition SP : N := 32%N.

Fixpoint eqb (a b : jsstring) : bool :=
  match a, b with
  | [], [] => true
  | x :: a', y :: b' => N.eqb x y && eqb a' b'
  | _, _ => false
  end.

(** [s.length] *)
Definition length (s : jsstring) : nat := List.length s.

(** Truthiness of a string: the empty string is falsy. *)
Definition truthy (s : jsstring) : bool :=
  match s with [] => false | _ :: _ => true end.

(** [\s] of a RegExp without the [u] flag, which is also the set of
    characters [String.prototype.trim] removes (WhiteSpace and
    LineTerminator of ECMA-262). *)
Definition isSpace (c : N) : bool :=
  ((9 <=? c) && (c <=? 13) || (c =? 32) || (c =? 160) || (c =? 5760)
   || (8192 <=? c) && (c <=? 8202) || (c =? 8232) || (c =? 8233)
   || (c =? 8239) || (c =? 8287) || (c =? 12288) || (c =? 65279))%N.

Definition isUpper (c : N) : bool := ((65 <=? c) && (c <=? 90))%N.
Definition isLower (c : N) : bool := ((97 <=? c) && (c <=? 122))%N.
Definition isDigit (c : N) : bool := ((48 <=? c) && (c <=? 57))%N.
(** [\w] *)
Definition isWord (c : N) : bool :=
  isUpper c || isLower c || isDigit c || (c =? 95)%N.
(** The class [[.!?]] *)
Definition isStop (c : N) : bool := ((c =? 46) || (c =? 33) || (c =? 63))%N.

Fixpoint dropWhile (p : N -> bool) (s : jsstring) : jsstring :=
  match s with
  | [] => []
  | c :: t => if p c then dropWhile p t else s
  end.

Fixpoint takeWhile (p : N -> bool) (s : jsstring) : jsstring :=
  match s with
  | [] => []
  | c :: t => if p c then c :: takeWhile p t else []
  end.

(** [s.trim()] *)
Definition trim (s : jsstring) : jsstring :=
  rev (dropWhile isSpace (rev (dropWhile isSpace s))).

(** [s.startsWith(p)] *)
Fixpoint startsWith (p s : jsstring) : bool :=
  match p, s with
  | [], _ => true
  | x :: p', y :: s' => N.eqb x y && startsWith p' s'
  | _ :: _, [] => false
  end.

(** [s.split(sep)] for a one-character separator: never the empty array. *)
Fixpoint split (sep : N) (s : jsstring) : list jsstring :=
  match s with
  | [] => [[]]
  | c :: t =>
      if N.eqb c sep then [] :: split sep t
      else match split sep t with
           | [] => [[c]]
           | h :: r => (c :: h) :: r
           end
  end.

(** [a.join(sep)] *)
Fixpoint join (sep : jsstring) (a : list jsstring) : jsstring :=
  match a with
  | [] => []
  | [x] => x
  | x :: r => x ++ sep ++ join sep r
  end.

(** [s.substring(0, n)] *)
Definition substring0 (n : nat) (s : jsstring) : jsstring := firstn n s.

(** [a || b] on strings. *)
Definition or_else (a b : jsstring) : jsstring := if truthy a then a else b.

(** ** [String.prototype.replace] with a global RegExp

    A pattern is given by its matcher at the current position: the
    replacement text and the rest of the input after the match.  The scan
    goes left to right over non-overlapping matches; where the pattern does
    not match, the character is copied. *)
Definition matcher := jsstring -> option (jsstring * jsstring).

Fixpoint replaceAllFrom (m : matcher) (fuel : nat) (s : jsstring) : jsstring :=
  match fuel with
  | O => s
  | S fuel' =>
      match s with
      | [] => []
      | c :: t =>
          match m s with
          | Some (rep, rest) => rep ++ replaceAllFrom m fuel' rest
          | None => c :: replaceAllFrom m fuel' t
          end
      end
  end.

Definition replaceAll (m : matcher) (s : jsstring) : jsstring :=
  replaceAllFrom m (List.length s) s.

(** [/\s+/g] replaced by one space *)
Definition m_spaces : matcher := fun s =>
  match s with
  | c :: _ => if isSpace c then Some ([SP], dropWhile isSpace s) else None
  | [] => None
  end.

(** [/\n+/g] replaced by one space *)
Definition m_newlines : matcher := fun s =>
  match s with
  | c :: _ =>
      if N.eqb c LF then Some ([SP], dropWhile (N.eqb LF) s) else None
  | [] => None
  end.

(** [/[^\w\s.,!?-]/g] replaced by one space *)
Definition m_noise : matcher := fun s =>
  match s with
  | c :: t =>
      if isWord c || isSpace c || isStop c || (c =? 44)%N || (c =? 45)%N
      then None else Some ([SP], t)
  | [] => None
  end.

(** [/([.!?])\s+/g] replaced by ['$1\n'] *)
Definition m_stop_spaces : matcher := fun s =>
  match s with
  | c :: ((w :: _) as t) =>
      if isStop c && isSpace w then Some ([c; LF], dropWhile isSpace t)
      else None
  | _ => None
  end.

(** [/([.!?])\n/g] replaced by ['$1\n\n'] *)
Definition m_stop_newline : matcher := fun s =>
  match s with
  | c :: n :: t =>
      if isStop c && N.eqb n LF then Some ([c; LF; LF], t) else None
  | _ => None
  end.

(** The sub-pattern [[A-Z][a-z]+:] at the head of [s]: the name and the
    rest after the colon. *)
Definition nameColon (s : jsstring) : option (jsstring * jsstring) :=
  match s with
  | u :: t =>
      if isUpper u then
        match takeWhile isLower t, dropWhile isLower t with
        | (_ :: _) as ls, c :: r =>
            if (c =? 58)%N then Some (u :: ls, r) else None
        | _, _ => None
        end
      else None
  | [] => None
  end.

(** [/([A-Z][a-z]+):/g] replaced by ['$1,'] *)
Definition m_name_colon : matcher := fun s =>
  match nameColon s with
  | Some (name, rest) => Some (name ++ [44%N], rest)
  | None => None
  end.

(** [/([.!?])\s*([A-Z])/g] replaced by ['$1\n\n$2'] *)
Definition m_stop_upper : matcher := fun s =>
  match s with
  | c :: t =>
      if isStop c then
        match dropWhile isSpace t with
        | u :: r => if isUpper u then Some ([c; LF; LF; u], r) else None
        | [] => None
        end
      else None
  | [] => None
  end.

(** [/([^.!?])\s*([A-Z][a-z]+:)/g] replaced by ['$1\n$2'] *)
Definition m_before_name : matcher := fun s =>
  match s with
  | c :: t =>
      if isStop c then None
      else match nameColon (dropWhile isSpace t) with
           | Some (name, rest) => Some (c :: LF :: name ++ [58%N], rest)
           | None => None
           end
  | [] => None
  end.

End Js.

Import Js.

(* ================================================================== *)
(** * Exceptions, effects and the environment *)
(* ================================================================== *)

(** Thrown values.  [Error] is [new Error(message)] and the rejections of
    the collaborators; [TypeError] is what the engine throws on a property
    access on [undefined]. *)
Inductive exn : Type :=
| Error (msg : jsstring)
| TypeError (msg : jsstring).

(** [error.message] *)
Definition message (e : exn) : jsstring :=
  match e with Error m => m | TypeError m => m end.

Inductive Result (A : Type) : Type :=
| Ok (a : A)
| Throw (e : exn).
Arguments Ok {A} a.
Arguments Throw {A} e.

(** A [Buffer]. *)
Definition bytes := list Byte.byte.

(** What the process does to the outside world, in order. *)
Inductive Event : Type :=
| EvGet (url : jsstring) (timeout : N)
| EvSleep (ms : nat)
| EvGemini (prompt : jsstring)
| EvTts (voiceId text : jsstring)
| EvWriteFile (data : bytes)
| EvReadFile
| EvUnlink.

(** The state a run threads: the events so far and the scratch file
    [temp-podcast.mp3] under [__dirname], the only file the pipeline uses. *)
Record State : Type := mkState {
  trace : list Event;
  tempFile : option bytes
}.

(** Logical time: the number of events so far. *)
Definition now (s : State) : nat := List.length (trace s).

Definition log (e : Event) (s : State) : State :=
  mkState (trace s ++ [e]) (tempFile s).

(** A CSS selector of the forms the source uses. *)
Inductive selector : Type :=
| Tag (name : string)
| Class (name : string)
| Id (name : string).

(** The body of a Gemini response, as far as the source inspects it:
    [response.data && response.data.candidates && response.data.candidates[0]]
    is falsy ([NoCandidate]); it is truthy and
    [candidates[0].content.parts[0].text] is a string ([Candidate]); or it is
    truthy and that property chain throws ([BadCandidate], with the engine's
    message). *)
Inductive GeminiData : Type :=
| NoCandidate
| BadCandidate (reason : jsstring)
| Candidate (text : jsstring).

(** The collaborators.  [Page] is [response.data] of a fetched page as
    [cheerio.load] holds it. *)
Record Env : Type := mkEnv {
  Page : Type;
  (** [axios(url, options)]: the page, or the rejection *)
  axios : nat -> jsstring -> exn + Page;
  (** [$(selector).length] *)
  cheerio_length : Page -> selector -> nat;
  (** [$(selector).text()] *)
  cheerio_text : Page -> selector -> jsstring;
  (** for [content = $(selector)]: [content.find(group).remove()] followed
      by [content.text()]: the document after the removal and the text *)
  cheerio_strip : Page -> selector -> list selector -> Page * jsstring;
  (** [axios.post] to the Gemini endpoint with the prompt *)
  gemini : nat -> jsstring -> exn + GeminiData;
  (** the ElevenLabs text-to-speech endpoint: voice, text *)
  elevenlabs : nat -> jsstring -> jsstring -> exn + bytes;
  (** [new Date(dateAdded).toLocaleDateString()] *)
  toLocaleDateString : option N -> jsstring;
  (** a disk operation at this time fails with this error *)
  diskFault : nat -> option exn
}.

(** ** The monad of [async] code *)

Definition M (A : Type) : Type := State -> Result A * State.

Definition ret {A} (a : A) : M A := fun s => (Ok a, s).
Definition throw {A} (e : exn) : M A := fun s => (Throw e, s).
Definition bind {A B} (m : M A) (k : A -> M B) : M B :=
  fun s => match m s with
           | (Ok a, s') => k a s'
           | (Throw e, s') => (Throw e, s')
           end.
(** [try { m } catch (error) { h error }] *)
Definition try_catch {A} (m : M A) (h : exn -> M A) : M A :=
  fun s => match m s with
           | (Ok a, s') => (Ok a, s')
           | (Throw e, s') => h e s'
           end.

Declare Scope js_scope.
Delimit Scope js_scope with js.
Notation "x <- m ;; k" := (bind m (fun x => k))
  (at level 61, m at next level, right associativity) : js_scope.
Notation "' p <- m ;; k" := (bind m (fun x => match x with p => k end))
  (at level 61, p pattern, m at next level, right associativity) : js_scope.
Notation "m ;;; k" := (bind m (fun _ => k))
  (at level 61, right associativity) : js_scope.
Open Scope js_scope.

(** An oracle's answer as a computation. *)
Definition settle {A} (r : exn + A) : M A :=
  match r with inl e => throw e | inr a => ret a end.

Definition emit (e : Event) : M unit := fun s => (Ok tt, log e s).

(** ** Bookmarks and results *)

(** A bookmark of the data model: an object whose [url] and [title] are
    strings and whose [dateAdded] is a timestamp, each of which may be
    missing.  This is the input the loop body works on once the guard of
    line 368 has been evaluated; array entries of any other shape ([null],
    a [url] that is not a string), on which the guard itself throws, are in
    [Raw] below together with the loop over them. *)
Record Bookmark : Type := mkBookmark {
  url : option jsstring;
  title : option jsstring;
  dateAdded : option N
}.

Record PipelineResult : Type := mkResult {
  summary : jsstring;
  audioBuffer : option bytes;
  audioContentId : jsstring
}.

(* ================================================================== *)
(** * The pipeline of [server.js] *)
(* ================================================================== *)

Section Pipeline.

Variable env : Env.

(** ** Calls to the collaborators *)

Definition at_time {A} (f : nat -> M A) : M A := fun s => f (now s) s.

(** [axios(url, { headers, timeout })] *)
Definition axios_call (u : jsstring) (timeout : N) : M (Page env) :=
  at_time (fun t => emit (EvGet u timeout) ;;; settle (axios env t u)).

(** [new Promise(resolve => setTimeout(resolve, ms))] *)
Definition sleep (ms : nat) : M unit := emit (EvSleep ms).

Definition gemini_post (prompt : jsstring) : M GeminiData :=
  at_time (fun t => emit (EvGemini prompt) ;;; settle (gemini env t prompt)).

Definition elevenlabs_post (voiceId text : jsstring) : M bytes :=
  at_time (fun t =>
    emit (EvTts voiceId text) ;;; settle (elevenlabs env t voiceId text)).

Definition disk {A} (ev : Event) (op : M A) : M A :=
  at_time (fun t =>
    emit ev ;;;
    match diskFault env t with Some e => throw e | None => op end).

Definition ENOENT : exn := Error (lit "ENOENT: no such file or directory").

(** [writeFileAsync(tempAudioPath, data)] *)
Definition writeFileAsync (data : bytes) : M unit :=
  disk (EvWriteFile data) (fun s => (Ok tt, mkState (trace s) (Some data))).

(** [fs.readFileSync(tempAudioPath)] *)
Definition readFileSync : M bytes :=
  disk EvReadFile (fun s =>
    match tempFile s with
    | Some d => (Ok d, s)
    | None => (Throw ENOENT, s)
    end).

(** [unlinkAsync(tempAudioPath)] *)
Definition unlinkAsync : M unit :=
  disk EvUnlink (fun s =>
    match tempFile s with
    | Some _ => (Ok tt, mkState (trace s) None)
    | None => (Throw ENOENT, s)
    end).

(** ** [axiosWithRetry] (lines 18-28)

    [retryLoop] is the [for] loop from iteration [i] with [remaining]
    iterations to go ([remaining = maxRetries - i]); leaving the loop returns
    [undefined], here [None]. *)
Fixpoint retryLoop (u : jsstring) (timeout : N) (maxRetries i remaining : nat)
  : M (option (Page env)) :=
  match remaining with
  | O => ret None
  | S remaining' =>
      try_catch
        (r <- axios_call u timeout ;; ret (Some r))
        (fun error =>
           if i =? maxRetries - 1 then throw error
           else sleep (1000 * (i + 1)) ;;;
                retryLoop u timeout maxRetries (i + 1) remaining')
  end.

Definition axiosWithRetry (u : jsstring) (timeout : N) (maxRetries : nat)
  : M (option (Page env)) :=
  retryLoop u timeout maxRetries 0 maxRetries.

(** The default of the parameter [maxRetries]. *)
Definition defaultMaxRetries : nat := 3.

(** ** [generateSummary] (lines 166-216) *)

(** A line break of a template literal followed by its indentation. *)
Definition nl (indent : nat) (s : jsstring) : jsstring :=
  LF :: repeat SP indent ++ s.

Definition summaryPrompt (content : jsstring) : jsstring :=
  lit "Create a clear and informative summary of the following content. "
  ++ nl 4 (lit "The summary should be well-structured and easy to read.")
  ++ nl 4 (lit "Include:")
  ++ nl 4 (lit "- A brief introduction to the topic")
  ++ nl 4 (lit "- Key points and main ideas")
  ++ nl 4 (lit "- Important facts and details")
  ++ nl 4 (lit "- A conclusion with main takeaways")
  ++ nl 4 []
  ++ nl 4 (lit "Keep it under 200 words but make it comprehensive.")
  ++ nl 4 (lit "Use a professional but engaging tone.")
  ++ nl 4 (lit "Format it as a well-written article, not a conversation.")
  ++ nl 4 (lit "Avoid using conversational language or dialogue.")
  ++ nl 0 []
  ++ nl 4 (lit "Content to summarize:")
  ++ nl 4 content.

Definition invalidGeminiResponse : exn :=
  Error (lit "Invalid response format from Gemini API").

(** The [if] on the response shape and the read of the first candidate's
    text, shared by both generators. *)
Definition firstCandidateText (d : GeminiData) : M jsstring :=
  match d with
  | Candidate text => ret (trim text)
  | BadCandidate reason => throw (TypeError reason)
  | NoCandidate => throw invalidGeminiResponse
  end.

Definition generateSummary (content : jsstring) : M jsstring :=
  try_catch
    (let prompt := summaryPrompt content in
     response <- gemini_post prompt ;;
     firstCandidateText response)
    (fun error => throw error).

(** ** [generateConversationalScript] (lines 218-259) *)

Definition scriptPrompt (text title : jsstring) : jsstring :=
  lit "Create a natural conversation between two podcast hosts discussing this topic. "
  ++ nl 4 (lit "The hosts should be named Alex and Sarah.")
  ++ nl 4 (lit "Make it sound like a casual, engaging discussion.")
  ++ nl 4 (lit "Keep it brief (2-3 exchanges) but informative.")
  ++ nl 4 (lit "Format each line with the speaker's name followed by a colon.")
  ++ nl 4 (lit "Don't include any other text or formatting.")
  ++ nl 0 []
  ++ nl 4 (lit "Topic: " ++ title)
  ++ nl 4 (lit "Content to discuss: " ++ text).

Definition generateConversationalScript (text title : jsstring) : M jsstring :=
  try_catch
    (let prompt := scriptPrompt text title in
     response <- gemini_post prompt ;;
     firstCandidateText response)
    (fun error => throw error).

(** ** [generateSpeech] (lines 261-314) *)

Definition formatSpeechText (text : jsstring) : jsstring :=
  trim
    (replaceAll m_before_name
      (replaceAll m_stop_upper
        (replaceAll m_spaces
          (replaceAll m_name_colon
            (replaceAll m_stop_newline
              (replaceAll m_stop_spaces text)))))).

Definition voiceAlex : jsstring := lit "EXAVITQu4vr4xnSDxMaL".
Definition voiceSarah : jsstring := lit "21m00Tcm4TlvDq8ikWAM".

Definition generateSpeech (text : jsstring) (isAlex : bool) : M bytes :=
  try_catch
    (let formattedText := formatSpeechText text in
     let voiceId := if isAlex then voiceAlex else voiceSarah in
     elevenlabs_post voiceId formattedText)
    (fun error => throw error).

(** ** [generatePodcastAudio] (lines 316-360) *)

Definition COLON : N := 58%N.

Definition undefinedTrim : exn :=
  TypeError (lit "Cannot read properties of undefined (reading 'trim')").

(** [line.split(':')[1].trim()] *)
Definition lineText (line : jsstring) : M jsstring :=
  match nth_error (split COLON line) 1 with
  | Some part => ret (trim part)
  | None => throw undefinedTrim
  end.

(** The [for (const line of lines)] loop; [audioBuffers] is the array built
    so far.  Nothing can throw between the [await] and the [push], so the
    [try] block hands the extended array on. *)
Fixpoint forLines (lines : list jsstring) (audioBuffers : list bytes)
  : M (list bytes) :=
  match lines with
  | [] => ret audioBuffers
  | line :: rest =>
      if truthy (trim line) then
        let isAlex := startsWith (lit "Alex:") line in
        text <- lineText line ;;
        audioBuffers' <-
          try_catch
            (audio <- generateSpeech text isAlex ;;
             ret (audioBuffers ++ [audio]))
            (fun speechError => ret audioBuffers) ;;
        forLines rest audioBuffers'
      else forLines rest audioBuffers
  end.

Definition noAudio : exn :=
  Error (lit "No audio was generated for any part of the conversation").

(** [path.join(__dirname, 'temp-podcast.mp3')], relative to [__dirname] *)
Definition tempAudioPath : jsstring := lit "temp-podcast.mp3".

Definition generatePodcastAudio (conversation : jsstring) : M jsstring :=
  try_catch
    (let lines := split LF conversation in
     audioBuffers <- forLines lines [] ;;
     if List.length audioBuffers =? 0 then throw noAudio
     else
       let combinedAudio := List.concat audioBuffers in
       writeFileAsync combinedAudio ;;;
       ret tempAudioPath)
    (fun error => throw error).

(** ** [generateSummaryAndPodcast] (lines 362-478) *)

Definition summaryHeader : jsstring :=
  lit "<h2>Your Bookmarked Content Summary</h2>".

Definition contentSelectors : list selector :=
  [ Tag "article"; Class "article"; Class "post"; Class "entry"; Tag "main";
    Class "content"; Class "post-content"; Class "entry-content";
    Id "content"; Class "main-content"; Class "article-content";
    Class "story-content"; Class "post-body"; Class "entry-body" ].

(** ['script, style, nav, footer, header, .ads, .comments, .sidebar,
    .related, .share, .social, .menu, .navigation'] *)
Definition noiseSelectors : list selector :=
  [ Tag "script"; Tag "style"; Tag "nav"; Tag "footer"; Tag "header";
    Class "ads"; Class "comments"; Class "sidebar"; Class "related";
    Class "share"; Class "social"; Class "menu"; Class "navigation" ].

(** The [for (const selector of contentSelectors)] loop (lines 391-401) on
    the document [page] and the variable [mainContent]; [break] returns. *)
Fixpoint forSelectors (selectors : list selector) (page : Page env)
    (mainContent : jsstring) : Page env * jsstring :=
  match selectors with
  | [] => (page, mainContent)
  | selector :: rest =>
      if 0 <? cheerio_length env page selector then
        let (page', text) := cheerio_strip env page selector noiseSelectors in
        let mainContent' := trim text in
        if 100 <? length mainContent' then (page', mainContent')
        else forSelectors rest page' mainContent'
      else forSelectors rest page mainContent
  end.

(** Lines 385-408: the selector loop and the fall back to [body]. *)
Definition selectMainContent (page : Page env) : jsstring :=
  let (page', mainContent) := forSelectors contentSelectors page [] in
  if negb (truthy mainContent) || (length mainContent <? 100) then
    let (_, text) := cheerio_strip env page' (Tag "body") noiseSelectors in
    trim text
  else mainContent.

(** Line 410 *)
Definition normalizeContent (mainContent : jsstring) : jsstring :=
  trim (replaceAll m_noise (replaceAll m_newlines
          (replaceAll m_spaces mainContent))).

Definition notEnoughContent : exn := Error (lit "Not enough content extracted").

Definition undefinedData : exn :=
  TypeError (lit "Cannot read properties of undefined (reading 'data')").

(** [bookmark.title || $('title').text() || 'Untitled'] *)
Definition pageTitle (bookmark : Bookmark) (page : Page env) : jsstring :=
  or_else (match title bookmark with Some t => t | None => [] end)
    (or_else (cheerio_text env page (Tag "title")) (lit "Untitled")).

(** Lines 381-415: from the response to the extracted title and text. *)
Definition extractContent (bookmark : Bookmark) (page : Page env)
  : M (jsstring * jsstring) :=
  let title := pageTitle bookmark page in
  let mainContent := normalizeContent (selectMainContent page) in
  if negb (truthy mainContent) || (length mainContent <? 50)
  then throw notEnoughContent
  else ret (title, mainContent).

Definition requestTimeout : N := 15000%N.

(** Lines 371-415: the outer [try] block up to the inner [try]. *)
Definition fetchAndExtract (bookmark : Bookmark) (u : jsstring)
  : M (jsstring * jsstring) :=
  response <- axiosWithRetry u requestTimeout defaultMaxRetries ;;
  match response with
  | None => throw undefinedData
  | Some page => extractContent bookmark page
  end.

(** Lines 419-425: the two generation calls of the inner [try] block. *)
Definition generateContent (title mainContent : jsstring)
  : M (jsstring * jsstring) :=
  summarizedContent <- generateSummary (substring0 2000 mainContent) ;;
  conversation <-
    generateConversationalScript (substring0 2000 mainContent) title ;;
  ret (summarizedContent, conversation).

(** The three template literals appended to [summary] have one shape; they
    differ in indentation, in the colour and text of the paragraph. *)
Definition fragment (indent : nat) (href title pColor pText date : jsstring)
  : jsstring :=
  nl indent (lit "<div style="
     ++ q (lit "margin-bottom: 30px; padding: 20px; border: 1px solid #eee; border-radius: 8px;")
     ++ lit ">")
  ++ nl (indent + 2) (lit "<h3 style="
     ++ q (lit "margin-top: 0; color: #2c3e50;") ++ lit ">")
  ++ nl (indent + 4) (lit "<a href=" ++ q href ++ lit " style="
     ++ q (lit "color: #3498db; text-decoration: none;")
     ++ lit ">" ++ title ++ lit "</a>")
  ++ nl (indent + 2) (lit "</h3>")
  ++ nl (indent + 2) (lit "<p style=" ++ q pColor ++ lit ">" ++ pText
     ++ lit "</p>")
  ++ nl (indent + 2) (lit "<small style=" ++ q (lit "color: #7f8c8d;")
     ++ lit ">Bookmarked on: " ++ date ++ lit "</small>")
  ++ nl indent (lit "</div>")
  ++ nl (indent - 2) [].

Definition bookmarkedOn (bookmark : Bookmark) : jsstring :=
  toLocaleDateString env (dateAdded bookmark).

(** Lines 429-437 *)
Definition successFragment (bookmark : Bookmark) (u title summarizedContent
    : jsstring) : jsstring :=
  fragment 10 u title (lit "color: #34495e;") summarizedContent
    (bookmarkedOn bookmark).

(** Lines 440-448 *)
Definition generationErrorFragment (bookmark : Bookmark) (u title msg
    : jsstring) : jsstring :=
  fragment 10 u title (lit "color: #e74c3c;")
    (lit "Unable to generate summary: " ++ msg) (bookmarkedOn bookmark).

(** Lines 452-460 *)
Definition fetchErrorFragment (bookmark : Bookmark) (u msg : jsstring)
  : jsstring :=
  fragment 8 u
    (or_else (match title bookmark with Some t => t | None => [] end)
       (lit "Untitled"))
    (lit "color: #e74c3c;")
    (lit "Unable to fetch content: " ++ msg) (bookmarkedOn bookmark).

(** Line 368: [!bookmark.url || !bookmark.url.startsWith('http')], with the
    URL when the bookmark is not skipped. *)
Definition keptUrl (bookmark : Bookmark) : option jsstring :=
  match url bookmark with
  | None => None
  | Some u =>
      if negb (truthy u) || negb (startsWith (lit "http") u) then None
      else Some u
  end.

(** The variables [summary] and [allConversations]. *)
Definition Acc : Type := (jsstring * list jsstring)%type.

(** The body of [for (const bookmark of bookmarks)].  In the inner [try]
    nothing can throw after [allConversations.push], so the block hands on
    both variables at once. *)
Definition processBookmark (bookmark : Bookmark) (acc : Acc) : M Acc :=
  let (summary, allConversations) := acc in
  match keptUrl bookmark with
  | None => ret acc
  | Some u =>
      try_catch
        ('(title, mainContent) <- fetchAndExtract bookmark u ;;
         try_catch
           ('(summarizedContent, conversation) <-
               generateContent title mainContent ;;
            ret (summary ++ successFragment bookmark u title summarizedContent,
                 allConversations ++ [conversation]))
           (fun error =>
              ret (summary
                   ++ generationErrorFragment bookmark u title (message error),
                   allConversations)))
        (fun error =>
           ret (summary ++ fetchErrorFragment bookmark u (message error),
                allConversations))
  end.

Fixpoint forBookmarks (bookmarks : list Bookmark) (acc : Acc) : M Acc :=
  match bookmarks with
  | [] => ret acc
  | bookmark :: rest =>
      acc' <- processBookmark bookmark acc ;;
      forBookmarks rest acc'
  end.

(** Lines 464-475.  [audioBuffer] is assigned before [unlinkAsync] is
    awaited, so a failing unlink leaves it set. *)
Definition podcastAudio (allConversations : list jsstring)
  : M (option bytes) :=
  if 0 <? List.length allConversations then
    try_catch
      (let combinedConversation := join [LF; LF] allConversations in
       tempAudioPath <- generatePodcastAudio combinedConversation ;;
       audioBuffer <- readFileSync ;;
       try_catch (unlinkAsync ;;; ret (Some audioBuffer))
                 (fun error => ret (Some audioBuffer)))
      (fun error => ret None)
  else ret None.

Definition generateSummaryAndPodcast (bookmarks : list Bookmark)
  : M PipelineResult :=
  '(summary, allConversations) <- forBookmarks bookmarks (summaryHeader, []) ;;
  audioBuffer <- podcastAudio allConversations ;;
  ret (mkResult summary audioBuffer (lit "podcast-audio")).

End Pipeline.

(* ================================================================== *)
(** * A model of cheerio on parsed documents *)
(* ================================================================== *)

Module Dom.

(** A parsed document: text nodes and elements with their tag, [id] and
    classes. *)
#[local] Unset Elimination Schemes.
Inductive node : Type :=
| Text (s : jsstring)
| Element (tag id : string) (classes : list string) (children : list node).
#[local] Set Elimination Schemes.

Definition matchesSel (sel : selector) (tag id : string)
    (classes : list string) : bool :=
  match sel with
  | Tag n => String.eqb n tag
  | Class n => existsb (String.eqb n) classes
  | Id n => String.eqb n id
  end.

Definition nodeMatches (group : list selector) (n : node) : bool :=
  match n with
  | Text _ => false
  | Element t i c _ => existsb (fun sel => matchesSel sel t i c) group
  end.

(** The text of a node and its descendants. *)
Fixpoint textContent (n : node) : jsstring :=
  match n with
  | Text s => s
  | Element _ _ _ kids => flat_map textContent kids
  end.

(** [$(sel)]: the matching elements in document order. *)
Fixpoint select (sel : selector) (n : node) : list node :=
  match n with
  | Text _ => []
  | Element _ _ _ kids =>
      (if nodeMatches [sel] n then [n] else [])
      ++ flat_map (select sel) kids
  end.

(** An element after [find(group).remove()] on it: every descendant that
    matches a selector of the group is gone. *)
Fixpoint removeMatching (group : list selector) (n : node) : node :=
  match n with
  | Text _ => n
  | Element t i c kids =>
      Element t i c
        ((fix go (l : list node) : list node :=
            match l with
            | [] => []
            | k :: r =>
                if nodeMatches group k then go r
                else removeMatching group k :: go r
            end) kids)
  end.

(** The document after [$(sel).find(group).remove()]. *)
Fixpoint stripUnder (sel : selector) (group : list selector) (n : node)
  : node :=
  match n with
  | Text _ => n
  | Element t i c kids =>
      if nodeMatches [sel] n then removeMatching group n
      else Element t i c (map (stripUnder sel group) kids)
  end.

Definition length (page : node) (sel : selector) : nat :=
  List.length (select sel page).

Definition text (page : node) (sel : selector) : jsstring :=
  flat_map textContent (select sel page).

(** The selection is taken first; its elements are then read after the
    removal. *)
Definition strip (page : node) (sel : selector) (group : list selector)
  : node * jsstring :=
  (stripUnder sel group page,
   flat_map (fun e => textContent (removeMatching group e)) (select sel page)).

End Dom.

(** An environment over parsed documents, from stubs of the network. *)
Definition domEnv (web : nat -> jsstring -> exn + Dom.node)
    (llm : nat -> jsstring -> exn + GeminiData)
    (tts : nat -> jsstring -> jsstring -> exn + bytes)
    (faults : nat -> option exn) : Env :=
  {| Page := Dom.node;
     axios := web;
     cheerio_length := Dom.length;
     cheerio_text := Dom.text;
     cheerio_strip := Dom.strip;
     gemini := llm;
     elevenlabs := tts;
     toLocaleDateString := fun _ => lit "1/1/2025";
     diskFault := faults |}.

(* ================================================================== *)
(** * Stubbed collaborators and sample inputs *)
(* ================================================================== *)

Module Sample.

Import Dom.

Definition initial : State := mkState [] None.

Definition refused : exn := Error (lit "connect ECONNREFUSED").

(** A page whose [article] holds well over 100 characters, with a
    navigation bar inside it. *)
Definition articleText : jsstring :=
  lit "Rocq is a proof assistant. It lets you state theorems and check their proofs by machine, and it runs the programs you define in it.".

Definition goodPage : node :=
  Element "html" "" []
    [ Element "head" "" [] [ Element "title" "" [] [ Text (lit "Rocq") ] ];
      Element "body" "" []
        [ Element "article" "" []
            [ Element "nav" "" [] [ Text (lit "Home | About") ];
              Text articleText ];
          Element "footer" "" [] [ Text (lit "Contact us") ] ] ].

(** A page whose [article] holds exactly 100 characters, followed by a
    paragraph in the body. *)
Definition hundred : jsstring := repeat (code "x"%char) 100.

Definition boundaryPage : node :=
  Element "html" "" []
    [ Element "body" "" []
        [ Element "article" "" [] [ Text hundred ];
          Element "p" "" [] [ Text (lit " and the rest of the page") ] ] ].

(** A page with hardly any text. *)
Definition thinPage : node :=
  Element "html" "" []
    [ Element "body" "" [] [ Element "p" "" [] [ Text (lit "Hello.") ] ] ].

(** The summarizer and the scripter are told apart by their prompts. *)
Definition llmStub (script : jsstring) (prompt : jsstring) : exn + GeminiData :=
  if startsWith (lit "Create a clear") prompt
  then inr (Candidate (lit "A short summary."))
  else inr (Candidate script).

(** One byte of audio per line: 1 in Alex's voice, 2 in the other. *)
Definition ttsStub (voiceId text : jsstring) : exn + bytes :=
  if Js.eqb voiceId (lit "EXAVITQu4vr4xnSDxMaL")
  then inr [Byte.x01] else inr [Byte.x02].

Definition quota : exn := Error (lit "Request failed with status code 429").

Definition goodScript : jsstring :=
  lit "Alex: Hello there" ++ [LF] ++ lit "Sarah: Hi: welcome back".

(** A script with a line that has no colon between two well-formed ones. *)
Definition brokenScript : jsstring :=
  lit "Alex: Hello" ++ [LF] ++ lit "and now the news" ++ [LF]
  ++ lit "Sarah: Hi".

(** Everything answers, the same way each time. *)
Definition studio (page : node) (script : jsstring) : Env :=
  domEnv (fun _ _ => inr page) (fun _ => llmStub script)
    (fun _ => ttsStub) (fun _ => None).

(** Pages and scripts are served, speech synthesis is over quota. *)
Definition mute (page : node) (script : jsstring) : Env :=
  domEnv (fun _ _ => inr page) (fun _ => llmStub script)
    (fun _ _ _ => inl quota) (fun _ => None).

(** No page can be fetched. *)
Definition offline : Env :=
  domEnv (fun _ _ => inl refused) (fun _ => llmStub goodScript)
    (fun _ => ttsStub) (fun _ => None).


(** Pages of [good.example] are served, nothing else can be fetched. *)
Definition mixed : Env :=
  domEnv
    (fun _ u =>
       if startsWith (lit "https://good.example/") u then inr goodPage
       else inl refused)
    (fun _ => llmStub goodScript) (fun _ => ttsStub) (fun _ => None).

(** A bookmark with a URL and a title, added at the epoch. *)
Definition bm (u : string) (t : string) : Bookmark :=
  mkBookmark (Some (lit u)) (Some (lit t)) (Some 0%N).

End Sample.

(* ================================================================== *)
(** * Observations and the vocabulary of the design document *)
(* ================================================================== *)

(** The events of a run that started in [s] and ended in [s']. *)
Definition since (s s' : State) : list Event :=
  skipn (List.length (trace s)) (trace s').

(** The fetch attempts in a list of events. *)
Definition attemptsOf (evs : list Event) : nat :=
  List.length (filter (fun e => match e with EvGet _ _ => true | _ => false end)
                 evs).

(** The back-off delays in a list of events, in milliseconds. *)
Definition delaysOf (evs : list Event) : list nat :=
  flat_map (fun e => match e with EvSleep ms => [ms] | _ => [] end) evs.

(** The speech synthesis requests in a list of events: voice and text. *)
Definition ttsCalls (evs : list Event) : list (jsstring * jsstring) :=
  flat_map (fun e => match e with EvTts v t => [(v, t)] | _ => [] end) evs.



Definition notColon (c : N) : bool := negb (N.eqb c COLON).

(** A line has a colon. *)
Definition hasColon (line : jsstring) : bool := existsb (N.eqb COLON) line.

(** The segment of a line between its first colon and its second colon, or
    the end of the line when there is no second colon. *)
Definition betweenFirstTwoColons (line : jsstring) : jsstring :=
  takeWhile notColon (tl (dropWhile notColon line)).



(** The bookmarks the loop does not skip, with their URLs. *)
Definition kept (bookmarks : list Bookmark) : list (Bookmark * jsstring) :=
  flat_map (fun b => match keptUrl b with Some u => [(b, u)] | None => [] end)
    bookmarks.

(** [f] is one of the three fragments the loop appends for a bookmark. *)
Inductive fragmentFor (env : Env) : Bookmark * jsstring -> jsstring -> Prop :=
| SuccessFragment b u t summarizedContent :
    fragmentFor env (b, u) (successFragment env b u t summarizedContent)
| GenerationErrorFragment b u t msg :
    fragmentFor env (b, u) (generationErrorFragment env b u t msg)
| FetchErrorFragment b u msg :
    fragmentFor env (b, u) (fetchErrorFragment env b u msg).

(** Deterministic collaborators: the answer does not depend on when the
    question is asked. *)
Definition stubbed (env : Env) : Prop :=
  (forall t t' u, axios env t u = axios env t' u)
  /\ (forall t t' p, gemini env t p = gemini env t' p)
  /\ (forall t t' v x, elevenlabs env t v x = elevenlabs env t' v x)
  /\ (forall t t', diskFault env t = diskFault env t').

(** The outcome of a computation does not depend on the state it starts
    in. *)
Definition stateless {A} (m : M A) : Prop :=
  forall s s', fst (m s) = fst (m s').

(** The candidate text of a content selector on a page, as the selector
    loop computes it. *)
Definition candidateText (env : Env) (page : Page env) (sel : selector)
  : jsstring :=
  trim (snd (cheerio_strip env page sel noiseSelectors)).

(** The text the fall back to [body] yields. *)
Definition bodyText (env : Env) (page : Page env) : jsstring :=
  trim (snd (cheerio_strip env page (Tag "body") noiseSelectors)).

(* ================================================================== *)
(** * The rest of the server *)
(* ================================================================== *)

Module Server.

(** ** Configuration: the variables of [process.env] the server reads *)

Record Config : Type := mkConfig {
  GEMINI_API_KEY : option jsstring;
  ELEVENLABS_API_KEY : option jsstring;
  BREVO_API_KEY : option jsstring;
  EMAIL_FROM : option jsstring
}.

(** Truthiness of a value that is a string or [undefined]. *)
Definition given (v : option jsstring) : bool :=
  match v with Some x => truthy x | None => false end.

(** Lines 34-37 and 85-88: at start-up the process exits unless the
    ElevenLabs key is set and the Brevo key is set and at least 30
    characters long. *)
Definition startsUp (cfg : Config) : bool :=
  given (ELEVENLABS_API_KEY cfg)
  && negb (negb (given (BREVO_API_KEY cfg))
           || match BREVO_API_KEY cfg with
              | Some k => length k <? 30
              | None => false
              end).

(** ** The request and the response of [POST /api/summary] *)

(** The field [bookmarks] of the body: falsy, some other value that is not
    an array, or an array. *)
Inductive BookmarksField : Type :=
| Absent
| NotArray
| Items (items : list Bookmark).

Record Body : Type := mkBody {
  email : option jsstring;
  bookmarks : BookmarksField
}.

(** [{ success: true, message }] or [{ success: false, error }] *)
Inductive Json : Type :=
| Succeeded (msg : jsstring)
| Failed (error : jsstring).

Record Response : Type := mkResponse {
  status : nat;
  json : Json
}.

Record Attachment : Type := mkAttachment {
  name : jsstring;
  content : jsstring
}.

(** The [SendSmtpEmail] object handed to Brevo; [attachment] is [None] when
    the property is not set. *)
Record SendSmtpEmail : Type := mkMail {
  to : list jsstring;
  senderName : jsstring;
  senderEmail : option jsstring;
  subject : jsstring;
  htmlContent : jsstring;
  textContent : jsstring;
  attachment : option (list Attachment)
}.

(** [apiInstance.sendTransacEmail], asked at a logical time. *)
Definition Brevo : Type := nat -> SendSmtpEmail -> exn + unit.

(** [/<[^>]*>/g] replaced by the empty string *)
Definition m_tag : matcher := fun s =>
  match s with
  | c :: t =>
      if (c =? 60)%N then
        match dropWhile (fun x => negb (x =? 62)%N) t with
        | _ :: rest => Some ([], rest)
        | [] => None
        end
      else None
  | [] => None
  end.

(** [summary.replace(/<[^>]*>/g, '')] *)
Definition stripTags (html : jsstring) : jsstring := replaceAll m_tag html.

(** ** [Buffer.prototype.toString('base64')] *)

Definition base64Alphabet : jsstring :=
  lit "ABCDEFGHIJKLMNOPQRSTUVWXYZabcdefghijklmnopqrstuvwxyz0123456789+/".

Definition sextet (n : N) : N := nth (N.to_nat (n mod 64)) base64Alphabet 0%N.

Definition PAD : N := 61%N.

Fixpoint base64 (data : list N) : jsstring :=
  match data with
  | a :: b :: c :: rest =>
      let n := (a * 65536 + b * 256 + c)%N in
      sextet (n / 262144) :: sextet (n / 4096) :: sextet (n / 64) :: sextet n
      :: base64 rest
  | [a; b] =>
      let n := (a * 65536 + b * 256)%N in
      [sextet (n / 262144); sextet (n / 4096); sextet (n / 64); PAD]
  | [a] =>
      let n := (a * 65536)%N in
      [sextet (n / 262144); sextet (n / 4096); PAD; PAD]
  | [] => []
  end.

Definition toBase64 (buffer : bytes) : jsstring := base64 (map Byte.to_N buffer).

(** ** The handler of [POST /api/summary] (lines 101-164) *)

Definition failure (code : nat) (error : string) : Response :=
  mkResponse code (Failed (lit error)).

(** The outer [catch]: status 500 with
    [error.message || 'An error occurred while processing your request']. *)
Definition serverError (error : exn) : Response :=
  mkResponse 500
    (Failed (or_else (message error)
               (lit "An error occurred while processing your request"))).

(** Lines 133-141: the message built from the result of the pipeline. *)
Definition buildMail (cfg : Config) (recipient : jsstring)
    (r : PipelineResult) : SendSmtpEmail :=
  mkMail [recipient] (lit "Bookmark Podcast Summarizer") (EMAIL_FROM cfg)
    (lit "Your Weekly Bookmark Summary & Podcast")
    (summary r)
    (stripTags (summary r))
    (match audioBuffer r with
     | Some buffer =>
         Some [mkAttachment (lit "weekly-bookmark-podcast.mp3")
                 (toBase64 buffer)]
     | None => None
     end).

(** The handler: the response, the messages handed to Brevo and the state
    afterwards.  The inner [catch] rethrows the error of Brevo, which the
    outer [catch] turns into the response. *)
Definition summaryRoute (cfg : Config) (env : Env) (brevo : Brevo)
    (body : Body) (s : State) : Response * list SendSmtpEmail * State :=
  match email body with
  | None => (failure 400 "Email is required", [], s)
  | Some recipient =>
      if negb (truthy recipient) then
        (failure 400 "Email is required", [], s)
      else
        match bookmarks body with
        | Absent | NotArray | Items [] =>
            (failure 400 "At least one bookmark is required", [], s)
        | Items items =>
            if negb (given (BREVO_API_KEY cfg)) then
              (failure 500 "Brevo API key is not configured", [], s)
            else if negb (given (EMAIL_FROM cfg)) then
              (failure 500 "Sender email is not configured", [], s)
            else if negb (given (GEMINI_API_KEY cfg)) then
              (failure 500 "Gemini API key is not configured", [], s)
            else
              match generateSummaryAndPodcast env items s with
              | (Throw error, s1) => (serverError error, [], s1)
              | (Ok r, s1) =>
                  if negb (truthy (summary r)) then
                    (failure 500 "Failed to generate summary", [], s1)
                  else
                    let sendSmtpEmail := buildMail cfg recipient r in
                    match brevo (now s1) sendSmtpEmail with
                    | inr _ =>
                        (mkResponse 200
                           (Succeeded
                              (lit "Summary and podcast sent successfully")),
                         [sendSmtpEmail], s1)
                    | inl brevoError =>
                        (serverError brevoError, [sendSmtpEmail], s1)
                    end
              end
        end
  end.

End Server.

(** ** [scrapePage] of the scraper module *)


(* ================================================================== *)
(** * Further observations *)
(* ================================================================== *)

(** The events of [n] failed attempts of the retry loop from iteration [i],
    for a URL and a timeout: a request, and a delay before every further
    request. *)
Fixpoint failedAttempts (u : jsstring) (timeout : N) (i n : nat)
  : list Event :=
  match n with
  | O => []
  | S n' =>
      EvGet u timeout
      :: match n' with
         | O => []
         | S _ => EvSleep (1000 * (i + 1)) :: failedAttempts u timeout (i + 1) n'
         end
  end.

(** The events of [k] failed attempts, each followed by its delay. *)
Fixpoint retriedAttempts (u : jsstring) (timeout : N) (i k : nat)
  : list Event :=
  match k with
  | O => []
  | S k' =>
      EvGet u timeout :: EvSleep (1000 * (i + 1))
      :: retriedAttempts u timeout (i + 1) k'
  end.

(** The characters extraction lets through: [\w], the space and [.,!?-]. *)
Definition plainChar (c : N) : bool :=
  isWord c || (c =? 32)%N || isStop c || (c =? 44)%N || (c =? 45)%N.


(** White space, if any, is the space character. *)
Definition spaceIsBlank (c : N) : bool := negb (isSpace c) || (c =? 32)%N.

(** Neither the first nor the last character is white space. *)
Definition trimmed (s : jsstring) : bool :=
  match s with [] => true | c :: _ => negb (isSpace c) end
  && match rev s with [] => true | c :: _ => negb (isSpace c) end.

(** Page fetches, delays and text generation: the events of the loop over
    the bookmarks. *)
Definition isNetwork (e : Event) : bool :=
  match e with
  | EvGet _ _ | EvSleep _ | EvGemini _ => true
  | _ => false
  end.

(** Speech synthesis and the scratch file: the events of the audio stage. *)
Definition isAudio (e : Event) : bool :=
  match e with
  | EvTts _ _ | EvWriteFile _ | EvReadFile | EvUnlink => true
  | _ => false
  end.

Definition isTts (e : Event) : bool :=
  match e with EvTts _ _ => true | _ => false end.

(** The prompts of the text generation requests in a list of events. *)
Definition geminiPrompts (evs : list Event) : list jsstring :=
  flat_map (fun e => match e with EvGemini p => [p] | _ => [] end) evs.

(** The audio the voice service returned for the synthesis requests among
    the events [evs], the first of which happened at time [t]. *)
Fixpoint synthesized (env : Env) (t : nat) (evs : list Event) : list bytes :=
  match evs with
  | [] => []
  | e :: rest =>
      match e with
      | EvTts v x =>
          match elevenlabs env t v x with inr b => [b] | inl _ => [] end
      | _ => []
      end
      ++ synthesized env (S t) rest
  end.

(** A computation adds only events that satisfy [P] and leaves the scratch
    file alone. *)
Definition emitsOnly {A} (P : Event -> bool) (m : M A) : Prop :=
  forall s, exists evs,
    snd (m s) = mkState (trace s ++ evs) (tempFile s)
    /\ forallb P evs = true.

(** The synthesis request the loop makes for a line: voice and text. *)
Definition requestFor (line : jsstring) : jsstring * jsstring :=
  (if startsWith (lit "Alex:") line then voiceAlex else voiceSarah,
   formatSpeechText (trim (betweenFirstTwoColons line))).

(** No [>] comes after a [<]: the text holds no tag. *)
Definition tagFree (s : jsstring) : bool :=
  negb (existsb (fun c => (c =? 62)%N)
          (dropWhile (fun c => negb (c =? 60)%N) s)).

(** The lines the loop asks the voice service to speak: the lines that are
    not blank, up to the first one of them that has no colon. *)
Fixpoint spokenLines (lines : list jsstring) : list jsstring :=
  match lines with
  | [] => []
  | line :: rest =>
      if truthy (trim line) then
        if hasColon line then line :: spokenLines rest else []
      else spokenLines rest
  end.

(** The request names a recipient and a non-empty array of bookmarks. *)
Definition validBody (body : Server.Body) : bool :=
  Server.given (Server.email body)
  && match Server.bookmarks body with
     | Server.Items (_ :: _) => true
     | _ => false
     end.

(** The three variables the handler checks are set. *)
Definition configured (cfg : Server.Config) : bool :=
  Server.given (Server.BREVO_API_KEY cfg)
  && Server.given (Server.EMAIL_FROM cfg)
  && Server.given (Server.GEMINI_API_KEY cfg).

(** ** Further stubs *)

(** A network that refuses every request made before time [2 * k] and
    serves the sample page afterwards: the first [k] attempts of a fetch
    that starts at time 0 fail. *)
Definition flaky (k : nat) : Env :=
  domEnv (fun t _ => if t <? 2 * k then inl Sample.refused
                     else inr Sample.goodPage)
    (fun _ => Sample.llmStub Sample.goodScript) (fun _ => Sample.ttsStub)
    (fun _ => None).

(** ** Speaker tags in a text *)

(** The text begins with a speaker tag: a capital letter, one or more small
    letters and a colon, the pattern [[A-Z][a-z]+:]. *)
Definition isName (s : jsstring) : bool :=
  match nameColon s with Some _ => true | None => false end.

(** The text holds a speaker tag somewhere. *)
Fixpoint hasName (s : jsstring) : bool :=
  match s with
  | [] => false
  | _ :: t => isName s || hasName t
  end.

(** The first character after the leading small letters is a colon. *)
Definition colonNext (s : jsstring) : bool :=
  match dropWhile isLower s with c :: _ => (c =? 58)%N | [] => false end.

(** The five replacements of [generateSpeech] before the last one. *)
Definition beforeLastReplace (text : jsstring) : jsstring :=
  replaceAll m_stop_upper
    (replaceAll m_spaces
      (replaceAll m_name_colon
        (replaceAll m_stop_newline
          (replaceAll m_stop_spaces text)))).

(** A server with every setting in place, and a Brevo that accepts every
    message. *)
Definition fullConfig : Server.Config :=
  Server.mkConfig (Some (lit "gemini-key")) (Some (lit "elevenlabs-key"))
    (Some (lit "xkeysib-0123456789abcdef0123456789")) (Some (lit "bot@example.org")).

Definition brevoAccepts : Server.Brevo := fun _ _ => inr tt.


(** ** The events of one bookmark *)

(** What one round of the loop over the bookmarks may add to the trace:
    nothing for a bookmark that is skipped; for a bookmark that is kept,
    page requests, delays and text generation requests only, with one to
    three page requests, every one of them for the URL of the bookmark and
    with the timeout of line 375, and at most two text generation
    requests. *)
Definition bookmarkEvents (b : Bookmark) (evs : list Event) : Prop :=
  match keptUrl b with
  | None => evs = []
  | Some u =>
      1 <= attemptsOf evs <= 3
      /\ List.length (geminiPrompts evs) <= 2
      /\ forallb isNetwork evs = true
      /\ (forall v timeout, In (EvGet v timeout) evs ->
            v = u /\ timeout = requestTimeout)
  end.

(* ================================================================== *)
(** * Bookmarks as the request delivers them *)
(* ================================================================== *)

(** The handler checks that [bookmarks] is a non-empty array (line 107) and
    passes the array on as it is, so its entries are whatever JSON values
    the request holds.  [Bookmark] is an entry of the shape the data model
    gives: an object whose [url] is a string or missing.  This module has
    the other entries too, as far as the guard of line 368 tells them
    apart, and the loop over them. *)
Module Raw.

(** The value of the property [url]. *)
Inductive JsValue : Type :=
| JsUndefined
| JsNull
| JsBool (b : bool)
| JsNumber (n : N)
| JsString (s : jsstring)
| JsObject.

Definition truthy (v : JsValue) : bool :=
  match v with
  | JsUndefined | JsNull => false
  | JsBool b => b
  | JsNumber n => negb (n =? 0)%N
  | JsString s => Js.truthy s
  | JsObject => true
  end.

(** An entry of the array: [null], a number, string or boolean (on which
    [.url] is [undefined]), or an object or array with its [url] and with
    [title] and [dateAdded] as in [Bookmark]. *)
Inductive Entry : Type :=
| Null
| Primitive
| Object (url : JsValue) (title : option jsstring) (dateAdded : option N).

(** [null.url] *)
Definition nullEntry : exn :=
  TypeError (lit "Cannot read properties of null (reading 'url')").

(** [bookmark.url.startsWith(...)] when [bookmark.url] is truthy and not a
    string *)
Definition notAFunction : exn :=
  TypeError (lit "bookmark.url.startsWith is not a function").

(** Line 368, [!bookmark.url || !bookmark.url.startsWith('http')], as far as
    it depends on the shape of the entry: reading [url] of [null] throws,
    and so does calling [startsWith] on a truthy value that is not a string;
    otherwise the entry counts as a bookmark whose [url] is that string, or
    is missing when the value is falsy. *)
Definition guarded (entry : Entry) : Result Bookmark :=
  match entry with
  | Null => Throw nullEntry
  | Primitive => Ok (mkBookmark None None None)
  | Object (JsString u) title dateAdded =>
      Ok (mkBookmark (Some u) title dateAdded)
  | Object v title dateAdded =>
      if truthy v then Throw notAFunction
      else Ok (mkBookmark None title dateAdded)
  end.

(** [for (const bookmark of bookmarks)] (lines 367-462).  The guard is
    evaluated before the [try] of line 369 is entered, so what it throws
    leaves the loop and the function. *)
Fixpoint forBookmarks (env : Env) (bookmarks : list Entry) (acc : Acc)
  : M Acc :=
  match bookmarks with
  | [] => ret acc
  | entry :: rest =>
      match guarded entry with
      | Throw error => throw error
      | Ok bookmark =>
          acc' <- processBookmark env bookmark acc ;;
          forBookmarks env rest acc'
      end
  end.

Definition generateSummaryAndPodcast (env : Env) (bookmarks : list Entry)
  : M PipelineResult :=
  '(summary, allConversations) <- forBookmarks env bookmarks
                                     (summaryHeader, []) ;;
  audioBuffer <- podcastAudio env allConversations ;;
  ret (mkResult summary audioBuffer (lit "podcast-audio")).

(** The entry a bookmark of the data model is. *)
Definition ofBookmark (b : Bookmark) : Entry :=
  Object (match url b with Some u => JsString u | None => JsUndefined end)
    (title b) (dateAdded b).

(** The handler of [POST /api/summary] (lines 101-164) for a body whose
    [bookmarks] is an array. *)
Definition summaryRoute (cfg : Server.Config) (env : Env)
    (brevo : Server.Brevo) (email : option jsstring)
    (bookmarks : list Entry) (s : State)
  : Server.Response * list Server.SendSmtpEmail * State :=
  match email with
  | None => (Server.failure 400 "Email is required", [], s)
  | Some recipient =>
      if negb (Js.truthy recipient) then
        (Server.failure 400 "Email is required", [], s)
      else
        match bookmarks with
        | [] =>
            (Server.failure 400 "At least one bookmark is required", [], s)
        | _ :: _ =>
            if negb (Server.given (Server.BREVO_API_KEY cfg)) then
              (Server.failure 500 "Brevo API key is not configured", [], s)
            else if negb (Server.given (Server.EMAIL_FROM cfg)) then
              (Server.failure 500 "Sender email is not configured", [], s)
            else if negb (Server.given (Server.GEMINI_API_KEY cfg)) then
              (Server.failure 500 "Gemini API key is not configured", [], s)
            else
              match generateSummaryAndPodcast env bookmarks s with
              | (Throw error, s1) => (Server.serverError error, [], s1)
              | (Ok r, s1) =>
                  if negb (Js.truthy (summary r)) then
                    (Server.failure 500 "Failed to generate summary", [], s1)
                  else
                    let sendSmtpEmail := Server.buildMail cfg recipient r in
                    match brevo (now s1) sendSmtpEmail with
                    | inr _ =>
                        (Server.mkResponse 200
                           (Server.Succeeded
                              (lit "Summary and podcast sent successfully")),
                         [sendSmtpEmail], s1)
                    | inl brevoError =>
                        (Server.serverError brevoError, [sendSmtpEmail], s1)
                    end
              end
        end
  end.

End Raw.

(* ================================================================== *)
(** * Properties *)
(* ================================================================== *)

(** ** The monad *)

Lemma bind_ok {A B} (m : M A) (k : A -> M B) s a s' :
  m s = (Ok a, s') -> bind m k s = k a s'.
Proof. intros H. unfold bind. now rewrite H. Qed.


(** [catch (error) { throw error }] changes nothing. *)
Lemma try_rethrow {A} (m : M A) s :
  try_catch m (fun error => throw error) s = m s.
Proof. unfold try_catch, throw. destruct (m s) as [[a | e] s']; reflexivity. Qed.

Lemma now_log e s : now (log e s) = S (now s).
Proof. unfold now, log. cbn. rewrite length_app. cbn. lia. Qed.

Lemma since_app s l t :
  since s (mkState (trace s ++ l) t) = l.
Proof.
  unfold since. cbn. rewrite skipn_app, skipn_all, Nat.sub_diag. reflexivity.
Qed.

(** ** Calls to the collaborators, step by step *)

Section Calls.

Variable env : Env.

Lemma axios_call_eq u timeout s :
  axios_call env u timeout s =
  (match axios env (now s) u with inl e => Throw e | inr p => Ok p end,
   log (EvGet u timeout) s).
Proof.
  unfold axios_call, at_time, bind, emit, settle.
  destruct (axios env (now s) u); reflexivity.
Qed.

Lemma gemini_post_eq prompt s :
  gemini_post env prompt s =
  (match gemini env (now s) prompt with inl e => Throw e | inr d => Ok d end,
   log (EvGemini prompt) s).
Proof.
  unfold gemini_post, at_time, bind, emit, settle.
  destruct (gemini env (now s) prompt); reflexivity.
Qed.

Lemma elevenlabs_post_eq v x s :
  elevenlabs_post env v x s =
  (match elevenlabs env (now s) v x with inl e => Throw e | inr b => Ok b end,
   log (EvTts v x) s).
Proof.
  unfold elevenlabs_post, at_time, bind, emit, settle.
  destruct (elevenlabs env (now s) v x); reflexivity.
Qed.

Lemma generateSpeech_eq text isAlex s :
  generateSpeech env text isAlex s =
  elevenlabs_post env (if isAlex then voiceAlex else voiceSarah)
    (formatSpeechText text) s.
Proof. unfold generateSpeech. apply try_rethrow. Qed.

(** The three ways [axiosWithRetry] can go on its first, second and third
    attempt. *)
Lemma axiosWithRetry_cases u timeout s :
  let get := EvGet u timeout in
  let t := now s in
  axiosWithRetry env u timeout defaultMaxRetries s =
  match axios env t u with
  | inr p => (Ok (Some p), mkState (trace s ++ [get]) (tempFile s))
  | inl _ =>
      match axios env (2 + t) u with
      | inr p =>
          (Ok (Some p),
           mkState (trace s ++ [get; EvSleep 1000; get]) (tempFile s))
      | inl _ =>
          (match axios env (4 + t) u with
           | inr p => Ok (Some p)
           | inl e => Throw e
           end,
           mkState (trace s ++ [get; EvSleep 1000; get; EvSleep 2000; get])
             (tempFile s))
      end
  end.
Proof.
  cbv zeta. unfold axiosWithRetry, defaultMaxRetries, retryLoop.
  unfold try_catch at 1, bind at 1. rewrite axios_call_eq.
  destruct (axios env (now s) u) as [e1 | p1]; [| reflexivity ].
  cbn [Nat.eqb Nat.sub Nat.add]. unfold bind at 1, sleep, emit.
  unfold try_catch at 1, bind at 1. rewrite axios_call_eq.
  rewrite !now_log.
  destruct (axios env (S (S (now s))) u) as [e2 | p2].
  - cbn [Nat.eqb Nat.sub Nat.add]. unfold bind at 1.
    unfold try_catch at 1, bind at 1. rewrite axios_call_eq.
    rewrite !now_log. cbn [Nat.add].
    destruct (axios env (S (S (S (S (now s))))) u) as [e3 | p3];
      unfold ret, throw, log; cbn [trace tempFile Nat.eqb Nat.sub];
      rewrite <- !app_assoc; reflexivity.
  - unfold ret, log; cbn [trace tempFile]. rewrite <- !app_assoc. reflexivity.
Qed.

Lemma writeFileAsync_eq data s :
  writeFileAsync env data s =
  match diskFault env (now s) with
  | Some e => (Throw e, log (EvWriteFile data) s)
  | None => (Ok tt, mkState (trace s ++ [EvWriteFile data]) (Some data))
  end.
Proof.
  unfold writeFileAsync, disk, at_time, bind, emit.
  destruct (diskFault env (now s)); reflexivity.
Qed.

Lemma readFileSync_eq s :
  readFileSync env s =
  (match diskFault env (now s) with
   | Some e => Throw e
   | None => match tempFile s with Some d => Ok d | None => Throw ENOENT end
   end, log EvReadFile s).
Proof.
  unfold readFileSync, disk, at_time, bind, emit.
  destruct (diskFault env (now s)); [ reflexivity | ].
  cbn [tempFile log]. destruct (tempFile s); reflexivity.
Qed.

Lemma unlinkAsync_eq s :
  unlinkAsync env s =
  match diskFault env (now s) with
  | Some e => (Throw e, log EvUnlink s)
  | None =>
      match tempFile s with
      | Some _ => (Ok tt, mkState (trace s ++ [EvUnlink]) None)
      | None => (Throw ENOENT, log EvUnlink s)
      end
  end.
Proof.
  unfold unlinkAsync, disk, at_time, bind, emit.
  destruct (diskFault env (now s)); [ reflexivity | ].
  cbn [tempFile log]. destruct (tempFile s); reflexivity.
Qed.

End Calls.

(** ** Retries of the page fetch *)

(** C5 (as amended).  A page fetch makes at most three attempts: a failed
    first attempt is followed by a delay of 1 s and a failed second attempt
    by a delay of 2 s.  When the fetch fails in the end, exactly three
    attempts are observed, with the delays 1 s and 2 s between them, and the
    error of the third attempt surfaces at once: there is no delay of 3 s. *)
Theorem axiosWithRetry_three_attempts (env : Env) (u : jsstring) (timeout : N)
    (s : State) :
  let get := EvGet u timeout in
  let out := axiosWithRetry env u timeout defaultMaxRetries s in
  let evs := since s (snd out) in
  trace (snd out) = trace s ++ evs
  /\ attemptsOf evs <= 3
  /\ delaysOf evs = map (fun k => 1000 * k) (seq 1 (attemptsOf evs - 1))
  /\ ((exists page, fst out = Ok (Some page)) \/ (exists e, fst out = Throw e))
  /\ (forall e, fst out = Throw e ->
        evs = [get; EvSleep 1000; get; EvSleep 2000; get]
        /\ attemptsOf evs = 3
        /\ delaysOf evs = [1000; 2000]
        /\ axios env (4 + now s) u = inl e).
Proof.
  cbv zeta. rewrite axiosWithRetry_cases.
  destruct (axios env (now s) u) as [e1 | p1];
    [ destruct (axios env (2 + now s) u) as [e2 | p2];
      [ destruct (axios env (4 + now s) u) as [e3 | p3] | ] | ];
    cbn [fst snd]; rewrite since_app;
    (split; [ reflexivity | ]);
    (split; [ cbn; lia | ]);
    (split; [ reflexivity | ]);
    (split; [ eauto | ]);
    intros e H; try discriminate H.
  inversion H; subst. repeat split; reflexivity.
Qed.

(** With the network down, the fetch of a page fails after three attempts
    and two delays. *)
Lemma axiosWithRetry_three_attempts_offline :
  let u := lit "https://bad.example/b" in
  let out := axiosWithRetry Sample.offline u requestTimeout defaultMaxRetries
               Sample.initial in
  fst out = Throw Sample.refused
  /\ attemptsOf (since Sample.initial (snd out)) = 3
  /\ delaysOf (since Sample.initial (snd out)) = [1000; 2000].
Proof.
  cbv zeta.
  split; [ vm_compute; reflexivity | ].
  destruct (axiosWithRetry_three_attempts Sample.offline
              (lit "https://bad.example/b") requestTimeout Sample.initial)
    as (_ & _ & _ & _ & H).
  destruct (H Sample.refused) as (_ & Ha & Hd & _).
  - vm_compute. reflexivity.
  - split; assumption.
Defined.

(** C5, as the design document words it, fails: when every attempt fails the
    delays are 1 s and 2 s only; no delay of 3 s precedes the error. *)
Lemma no_third_delay :
  let out := axiosWithRetry Sample.offline (lit "https://bad.example/b")
               requestTimeout defaultMaxRetries Sample.initial in
  fst out = Throw Sample.refused
  /\ delaysOf (trace (snd out)) = [1000; 2000]
  /\ delaysOf (trace (snd out)) <> [1000; 2000; 3000]
  /\ ~ In (EvSleep 3000) (trace (snd out)).
Proof.
  cbv zeta. split; [ vm_compute; reflexivity | ].
  assert (E : trace (snd (axiosWithRetry Sample.offline
                 (lit "https://bad.example/b") requestTimeout
                 defaultMaxRetries Sample.initial))
              = [EvGet (lit "https://bad.example/b") requestTimeout;
                 EvSleep 1000;
                 EvGet (lit "https://bad.example/b") requestTimeout;
                 EvSleep 2000;
                 EvGet (lit "https://bad.example/b") requestTimeout]).
  { rewrite axiosWithRetry_cases. reflexivity. }
  rewrite E. split; [ reflexivity | split ].
  - cbn. intros H. discriminate H.
  - cbn. intros [H | [H | [H | [H | [H | []]]]]]; discriminate H.
Qed.

(** ** Dialogue lines *)

Lemma split_head sep s :
  exists r, split sep s = takeWhile (fun c => negb (N.eqb c sep)) s :: r.
Proof.
  induction s as [| c t [r IH]]; cbn.
  - now exists [].
  - destruct (N.eqb c sep); cbn.
    + now exists (split sep t).
    + rewrite IH. now exists r.
Qed.

Lemma hasColon_cons c t :
  hasColon (c :: t) = N.eqb c COLON || hasColon t.
Proof. unfold hasColon. cbn. now rewrite N.eqb_sym. Qed.

(** [split(':')[1]] is the segment between the first two colons. *)
Lemma split_second line :
  hasColon line = true ->
  nth_error (split COLON line) 1 = Some (betweenFirstTwoColons line).
Proof.
  induction line as [| c t IH]; [ discriminate | ].
  rewrite hasColon_cons. unfold betweenFirstTwoColons, notColon. cbn.
  destruct (N.eqb c COLON) eqn:E; cbn.
  - intros _. destruct (split_head COLON t) as [r ->]. reflexivity.
  - intros H. specialize (IH H).
    destruct (split COLON t) as [| h r]; [ discriminate IH | exact IH ].
Qed.

(** Without a colon [split(':')] has one element and [[1]] is
    [undefined]. *)
Lemma split_no_colon line :
  hasColon line = false -> split COLON line = [line].
Proof.
  induction line as [| c t IH]; [ reflexivity | ].
  rewrite hasColon_cons. cbn.
  destruct (N.eqb c COLON); cbn; [ discriminate | ].
  intros H. now rewrite (IH H).
Qed.

Lemma lineText_colon line :
  hasColon line = true ->
  lineText line = ret (trim (betweenFirstTwoColons line)).
Proof. intros H. unfold lineText. now rewrite (split_second _ H). Qed.

Lemma lineText_no_colon line :
  hasColon line = false -> lineText line = throw undefinedTrim.
Proof. intros H. unfold lineText. now rewrite (split_no_colon _ H). Qed.

Lemma takeWhile_app_stop p a c r :
  forallb p a = true -> p c = false -> takeWhile p (a ++ c :: r) = a.
Proof.
  intros Ha Hc. induction a as [| x a IH]; cbn in *.
  - now rewrite Hc.
  - apply andb_prop in Ha as [Hx Ha]. rewrite Hx. now rewrite IH.
Qed.

Lemma dropWhile_app_stop p a c r :
  forallb p a = true -> p c = false -> dropWhile p (a ++ c :: r) = c :: r.
Proof.
  intros Ha Hc. induction a as [| x a IH]; cbn in *.
  - now rewrite Hc.
  - apply andb_prop in Ha as [Hx Ha]. rewrite Hx. now rewrite IH.
Qed.

Lemma no_colon_forallb a : hasColon a = false -> forallb notColon a = true.
Proof.
  induction a as [| x a IH]; [ reflexivity | ].
  rewrite hasColon_cons. cbn. unfold notColon at 1.
  destruct (N.eqb x COLON); cbn; [ discriminate | exact IH ].
Qed.

Section Lines.

Variable env : Env.

(** One round of the loop over the lines, for a line that is not blank and
    has a colon: one synthesis request, whose audio is appended on success
    and left out on failure. *)
Lemma forLines_step line rest acc s :
  truthy (trim line) = true -> hasColon line = true ->
  let voice := if startsWith (lit "Alex:") line then voiceAlex else voiceSarah in
  let text := formatSpeechText (trim (betweenFirstTwoColons line)) in
  forLines env (line :: rest) acc s =
  match elevenlabs env (now s) voice text with
  | inr audio => forLines env rest (acc ++ [audio]) (log (EvTts voice text) s)
  | inl _ => forLines env rest acc (log (EvTts voice text) s)
  end.
Proof.
  intros Hb Hc. cbv zeta. cbn [forLines]. rewrite Hb, (lineText_colon _ Hc).
  unfold bind at 1, ret at 1. unfold bind at 1, try_catch at 1, bind at 1.
  rewrite generateSpeech_eq, elevenlabs_post_eq.
  destruct (elevenlabs env (now s) _ _); reflexivity.
Qed.

Lemma forLines_blank line rest acc :
  truthy (trim line) = false ->
  forLines env (line :: rest) acc = forLines env rest acc.
Proof. intros Hb. cbn [forLines]. now rewrite Hb. Qed.

(** A line that is not blank and has no colon ends the loop with a
    [TypeError], before any request for it or for the lines after it. *)
Lemma forLines_no_colon line rest acc s :
  truthy (trim line) = true -> hasColon line = false ->
  forLines env (line :: rest) acc s = (Throw undefinedTrim, s).
Proof.
  intros Hb Hc. cbn [forLines]. rewrite Hb, (lineText_no_colon _ Hc).
  reflexivity.
Qed.

End Lines.

(** C9.  For a line that is not blank and has a colon, the text handed to
    speech synthesis is the segment between the first colon and the second
    colon (or the end of the line), trimmed; whatever follows a second colon
    plays no part in it. *)
Theorem synthesized_text_between_colons (env : Env) (line : jsstring)
    (rest : list jsstring) (acc : list bytes) :
  truthy (trim line) = true -> hasColon line = true ->
  lineText line = ret (trim (betweenFirstTwoColons line))
  /\ forLines env (line :: rest) acc =
     (audioBuffers' <-
        try_catch
          (audio <- generateSpeech env (trim (betweenFirstTwoColons line))
                      (startsWith (lit "Alex:") line) ;;
           ret (acc ++ [audio]))
          (fun _ => ret acc) ;;
      forLines env rest audioBuffers')
  /\ (forall a b c, hasColon a = false -> hasColon b = false ->
        line = a ++ COLON :: b ++ COLON :: c ->
        lineText line = ret (trim b)).
Proof.
  intros Hb Hc. split; [ now apply lineText_colon | split ].
  - cbn [forLines]. rewrite Hb, (lineText_colon _ Hc). reflexivity.
  - intros a b c Ha Hbc ->. rewrite (lineText_colon _ Hc).
    unfold betweenFirstTwoColons.
    rewrite (dropWhile_app_stop notColon a COLON _ (no_colon_forallb _ Ha)
               eq_refl).
    cbn [tl].
    now rewrite (takeWhile_app_stop notColon b COLON c
                   (no_colon_forallb _ Hbc) eq_refl).
Qed.

(** A line with three colons: only the middle segment is synthesized. *)
Lemma synthesized_text_between_colons_example :
  let line := lit "Sarah: Hi: welcome back" in
  lineText line = ret (lit "Hi").
Proof.
  cbv zeta.
  destruct (synthesized_text_between_colons Sample.offline
              (lit "Sarah: Hi: welcome back") [] [] eq_refl eq_refl)
    as (_ & _ & H).
  exact (H (lit "Sarah") (lit " Hi") (lit " welcome back")
           eq_refl eq_refl eq_refl).
Defined.

(** C10 on a script with a line that has no colon.  Neither [and now the
    news] nor [Sarah: Hi] is blank or starts with [Alex:], so both should be
    spoken in the second voice.  On the first the parse of line 330, outside
    the [try] of the loop, throws a [TypeError] before any request is made:
    neither line is synthesized in any voice, although [Sarah: Hi] on its
    own is requested in the voice [21m00Tcm4TlvDq8ikWAM]. *)
Lemma colonless_line_has_no_voice :
  let env := Sample.studio Sample.goodPage Sample.goodScript in
  let lines := [lit "and now the news"; lit "Sarah: Hi"] in
  let out := forLines env lines [] Sample.initial in
  forallb (fun line => truthy (trim line)
                       && negb (startsWith (lit "Alex:") line)) lines = true
  /\ fst out = Throw undefinedTrim
  /\ ttsCalls (trace (snd out)) = []
  /\ ttsCalls (trace (snd (forLines env [lit "Sarah: Hi"] [] Sample.initial)))
     = [(lit "21m00Tcm4TlvDq8ikWAM", lit "Hi")].
Proof. cbv zeta. repeat split; vm_compute; reflexivity. Qed.

(** ** The loop over the bookmarks never throws *)

Section Total.

Variable env : Env.

Lemma processBookmark_total b acc s :
  exists acc' s', processBookmark env b acc s = (Ok acc', s').
Proof.
  destruct acc as [summary convs]. unfold processBookmark.
  destruct (keptUrl b) as [u |]; [| eexists; eexists; reflexivity ].
  unfold try_catch at 1, bind at 1.
  destruct (fetchAndExtract env b u s) as [[[t mc] | e] s1];
    [| eexists; eexists; reflexivity ].
  unfold try_catch, bind.
  destruct (generateContent env t mc s1) as [[[sc conv] | e] s2];
    eexists; eexists; reflexivity.
Qed.

Lemma forBookmarks_total bs : forall acc s,
  exists acc' s', forBookmarks env bs acc s = (Ok acc', s').
Proof.
  induction bs as [| b bs IH]; intros acc s; cbn [forBookmarks].
  - eexists; eexists; reflexivity.
  - destruct (processBookmark_total b acc s) as (acc1 & s1 & H).
    rewrite (bind_ok _ _ _ H). apply IH.
Qed.

Lemma podcastAudio_total convs s :
  exists a s', podcastAudio env convs s = (Ok a, s').
Proof.
  unfold podcastAudio. destruct (0 <? List.length convs);
    [| eexists; eexists; reflexivity ].
  unfold try_catch at 1, bind at 1.
  destruct (generatePodcastAudio env _ s) as [[p | e] s1];
    [| eexists; eexists; reflexivity ].
  unfold bind at 1.
  destruct (readFileSync env s1) as [[d | e] s2];
    [| eexists; eexists; reflexivity ].
  unfold try_catch, bind.
  destruct (unlinkAsync env s2) as [[[] | e] s3];
    eexists; eexists; reflexivity.
Qed.

Lemma generateSummaryAndPodcast_total bs s :
  exists r s', generateSummaryAndPodcast env bs s = (Ok r, s').
Proof.
  unfold generateSummaryAndPodcast.
  destruct (forBookmarks_total bs (summaryHeader, []) s)
    as ([summary convs] & s1 & H).
  rewrite (bind_ok _ _ _ H).
  destruct (podcastAudio_total convs s1) as (a & s2 & Ha).
  rewrite (bind_ok _ _ _ Ha). eexists; eexists; reflexivity.
Qed.

(** What the result is made of. *)
Lemma generateSummaryAndPodcast_eq bs s summary convs s1 a s2 :
  forBookmarks env bs (summaryHeader, []) s = (Ok (summary, convs), s1) ->
  podcastAudio env convs s1 = (Ok a, s2) ->
  generateSummaryAndPodcast env bs s =
  (Ok (mkResult summary a (lit "podcast-audio")), s2).
Proof.
  intros H Ha. unfold generateSummaryAndPodcast.
  rewrite (bind_ok _ _ _ H). rewrite (bind_ok _ _ _ Ha). reflexivity.
Qed.

End Total.

(** ** Failure isolation in the audio stage *)

(** *** Traces only grow *)








Lemma since_eq s s' evs : trace s' = trace s ++ evs -> since s s' = evs.
Proof.
  intros H. unfold since. rewrite H.
  now rewrite skipn_app, skipn_all, Nat.sub_diag.
Qed.


Section Growth.

Variable env : Env.














(** *** When every synthesis request of a run fails *)


(** The audio stage, by the outcome of the loop and of the write. *)
Lemma generatePodcastAudio_eq conv s :
  generatePodcastAudio env conv s =
  match forLines env (split LF conv) [] s with
  | (Ok bufs, s0) =>
      if List.length bufs =? 0 then (Throw noAudio, s0)
      else
        match diskFault env (now s0) with
        | Some e => (Throw e, log (EvWriteFile (List.concat bufs)) s0)
        | None =>
            (Ok tempAudioPath,
             mkState (trace s0 ++ [EvWriteFile (List.concat bufs)])
               (Some (List.concat bufs)))
        end
  | (Throw e, s0) => (Throw e, s0)
  end.
Proof.
  unfold generatePodcastAudio. rewrite try_rethrow. cbv zeta. unfold bind at 1.
  destruct (forLines env (split LF conv) [] s) as [[bufs | e] s0];
    [| reflexivity ].
  destruct (List.length bufs =? 0); [ reflexivity | ].
  unfold bind. rewrite writeFileAsync_eq.
  destruct (diskFault env (now s0)); reflexivity.
Qed.


(** Lines 464-475, by the outcome of the audio stage and of reading the
    scratch file back. *)
Lemma podcastAudio_eq convs s :
  podcastAudio env convs s =
  if 0 <? List.length convs then
    match generatePodcastAudio env (join [LF; LF] convs) s with
    | (Ok _, s1) =>
        match (audioBuffer <- readFileSync env ;;
               try_catch (unlinkAsync env ;;; ret (Some audioBuffer))
                 (fun error => ret (Some audioBuffer))) s1 with
        | (Ok a, s2) => (Ok a, s2)
        | (Throw _, s2) => (Ok None, s2)
        end
    | (Throw _, s1) => (Ok None, s1)
    end
  else (Ok None, s).
Proof.
  unfold podcastAudio. destruct (0 <? List.length convs); [| reflexivity ].
  cbv zeta. unfold try_catch at 1, bind at 1.
  destruct (generatePodcastAudio env (join [LF; LF] convs) s)
    as [[p | e] s1]; reflexivity.
Qed.




End Growth.

(** C1 on a script whose second line has no colon: the first line is
    synthesized, then the audio stage throws a [TypeError]; the third line
    is never synthesized and the result carries no audio, although both
    well-formed lines could be synthesized. *)
Lemma colonless_line_aborts_audio :
  let env := Sample.studio Sample.goodPage Sample.brokenScript in
  let stage := generatePodcastAudio env Sample.brokenScript Sample.initial in
  let run := generateSummaryAndPodcast env
               [Sample.bm "https://good.example/a" "A"] Sample.initial in
  Sample.brokenScript
    = lit "Alex: Hello" ++ [LF] ++ lit "and now the news" ++ [LF]
      ++ lit "Sarah: Hi"
  /\ fst stage = Throw undefinedTrim
  /\ ttsCalls (trace (snd stage)) = [(voiceAlex, lit "Hello")]
  /\ (exists r, fst run = Ok r /\ audioBuffer r = None)
  /\ ttsCalls (trace (snd run)) = [(voiceAlex, lit "Hello")].
Proof.
  cbv zeta. split; [ reflexivity | ].
  split; [ vm_compute; reflexivity | ].
  split; [ vm_compute; reflexivity | ].
  split; [ | vm_compute; reflexivity ].
  eexists. split; vm_compute; reflexivity.
Qed.

(** The same script without the colon-less line yields both lines' audio. *)
Lemma wellformed_lines_are_synthesized :
  let env := Sample.studio Sample.goodPage Sample.brokenScript in
  let script := lit "Alex: Hello" ++ [LF] ++ lit "Sarah: Hi" in
  let out := forLines env (split LF script) [] Sample.initial in
  fst out = Ok [[Byte.x01]; [Byte.x02]].
Proof. vm_compute. reflexivity. Qed.

(** ** Failure isolation across bookmarks *)

(** On an entry that is a bookmark of the data model the guard does not
    throw. *)
Lemma guarded_ofBookmark b : Raw.guarded (Raw.ofBookmark b) = Ok b.
Proof. destruct b as [[u |] t d]; reflexivity. Qed.

(** On bookmarks of the data model the loop over the array entries is the
    loop over the bookmarks, and so is the run. *)
Lemma raw_forBookmarks_typed env bs : forall acc s,
  Raw.forBookmarks env (map Raw.ofBookmark bs) acc s = forBookmarks env bs acc s.
Proof.
  induction bs as [| b bs IH]; intros acc s; [ reflexivity | ].
  cbn [map Raw.forBookmarks forBookmarks]. rewrite guarded_ofBookmark.
  unfold bind. destruct (processBookmark env b acc s) as [[acc' | e] s1];
    [ apply IH | reflexivity ].
Qed.

Lemma raw_run_typed env bs s :
  Raw.generateSummaryAndPodcast env (map Raw.ofBookmark bs) s
  = generateSummaryAndPodcast env bs s.
Proof.
  unfold Raw.generateSummaryAndPodcast, generateSummaryAndPodcast.
  unfold bind at 1 3. now rewrite raw_forBookmarks_typed.
Qed.

Lemma raw_summaryRoute_typed cfg env brevo email items s :
  Raw.summaryRoute cfg env brevo email (map Raw.ofBookmark items) s
  = Server.summaryRoute cfg env brevo
      (Server.mkBody email (Server.Items items)) s.
Proof.
  unfold Raw.summaryRoute, Server.summaryRoute. cbn [Server.email Server.bookmarks].
  destruct email as [recipient |]; [| reflexivity ].
  destruct (negb (truthy recipient)); [ reflexivity | ].
  destruct items as [| b items]; [ reflexivity | ].
  change (map Raw.ofBookmark (b :: items))
    with (Raw.ofBookmark b :: map Raw.ofBookmark items) at 1.
  cbv iota beta.
  change (Raw.ofBookmark b :: map Raw.ofBookmark items)
    with (map Raw.ofBookmark (b :: items)).
  now rewrite raw_run_typed.
Qed.

(** An entry on which the guard throws ends the run with that error,
    whatever bookmarks come before it and whatever the collaborators
    answer. *)
Lemma raw_bad_entry_throws env entry e rest :
  Raw.guarded entry = Throw e ->
  forall before s,
    fst (Raw.generateSummaryAndPodcast env
           (map Raw.ofBookmark before ++ entry :: rest) s) = Throw e.
Proof.
  intros Hg before s.
  assert (H : forall acc s0,
            fst (Raw.forBookmarks env
                   (map Raw.ofBookmark before ++ entry :: rest) acc s0)
            = Throw e).
  { induction before as [| b before IH]; intros acc s0.
    - cbn [map app Raw.forBookmarks]. now rewrite Hg.
    - cbn [map app Raw.forBookmarks]. rewrite guarded_ofBookmark.
      destruct (processBookmark_total env b acc s0) as (acc' & s1 & Hp).
      rewrite (bind_ok _ _ _ Hp). apply IH. }
  unfold Raw.generateSummaryAndPodcast. unfold bind at 1.
  specialize (H (summaryHeader, []) s).
  destruct (Raw.forBookmarks env _ (summaryHeader, []) s) as [[acc | e'] s1];
    cbn [fst] in *; [ discriminate H | now inversion H ].
Qed.

(** C3 on an array with one malformed bookmark.  The array
    [[{url: 'https://good.example/a', title: 'A', dateAdded: 0},
      {url: 123, title: 'B'}]] passes the checks of the handler.  The first
    bookmark is fetched and summarized; at the second the guard of line 368,
    which stands outside the [try] of line 369, throws a [TypeError].  The
    orchestrator returns no result, the handler answers with status 500 and
    no message is sent.  A [null] entry has the same effect.  With the
    string ['123'] in place of the number the bookmark is skipped and the
    run returns its result. *)
Lemma non_string_url_fails_the_run :
  let env := Sample.studio Sample.goodPage Sample.goodScript in
  let good := Raw.Object (Raw.JsString (lit "https://good.example/a"))
                (Some (lit "A")) (Some 0%N) in
  let bad := Raw.Object (Raw.JsNumber 123) (Some (lit "B")) None in
  let skipped := Raw.Object (Raw.JsString (lit "123")) (Some (lit "B")) None in
  let run := Raw.generateSummaryAndPodcast env [good; bad] Sample.initial in
  fst run = Throw (TypeError (lit "bookmark.url.startsWith is not a function"))
  /\ attemptsOf (trace (snd run)) = 1
  /\ List.length (geminiPrompts (trace (snd run))) = 2
  /\ Raw.summaryRoute fullConfig env brevoAccepts (Some (lit "me@example.org"))
       [good; bad] Sample.initial
     = (Server.mkResponse 500
          (Server.Failed (lit "bookmark.url.startsWith is not a function")),
        [], snd run)
  /\ fst (Raw.generateSummaryAndPodcast env [good; Raw.Null] Sample.initial)
     = Throw (TypeError
                (lit "Cannot read properties of null (reading 'url')"))
  /\ (exists r,
        fst (Raw.generateSummaryAndPodcast env [good; skipped] Sample.initial)
        = Ok r
        /\ audioBuffer r = Some [Byte.x01; Byte.x02]).
Proof.
  cbv zeta. split; [ vm_compute; reflexivity | ].
  split; [ vm_compute; reflexivity | ].
  split; [ vm_compute; reflexivity | ].
  split; [ vm_compute; reflexivity | ].
  split; [ vm_compute; reflexivity | ].
  eexists. split; vm_compute; reflexivity.
Qed.



(** ** Fragments of the summary document *)

Section Fragments.

Variable env : Env.


Lemma processBookmark_skip b acc s :
  keptUrl b = None -> processBookmark env b acc s = (Ok acc, s).
Proof.
  intros H. destruct acc as [summary convs]. unfold processBookmark.
  now rewrite H.
Qed.

Lemma processBookmark_fragment b u summary convs s :
  keptUrl b = Some u ->
  exists f convs' s',
    processBookmark env b (summary, convs) s = (Ok (summary ++ f, convs'), s')
    /\ fragmentFor env (b, u) f.
Proof.
  intros Hk. unfold processBookmark. rewrite Hk.
  unfold try_catch at 1, bind at 1.
  destruct (fetchAndExtract env b u s) as [[[t mc] | e] s1].
  - unfold try_catch, bind.
    destruct (generateContent env t mc s1) as [[[sc conv] | e] s2].
    + eexists; eexists; eexists; split;
        [ reflexivity | apply SuccessFragment ].
    + eexists; eexists; eexists; split;
        [ reflexivity | apply GenerationErrorFragment ].
  - eexists; eexists; eexists; split;
      [ reflexivity | apply FetchErrorFragment ].
Qed.

Lemma forBookmarks_fragments bs : forall summary convs s,
  exists frags convs' s',
    forBookmarks env bs (summary, convs) s
      = (Ok (summary ++ List.concat frags, convs'), s')
    /\ Forall2 (fragmentFor env) (kept bs) frags.
Proof.
  induction bs as [| b bs IH]; intros summary convs s.
  - exists [], convs, s. cbn. rewrite app_nil_r. split; constructor.
  - cbn [forBookmarks]. unfold kept. cbn [flat_map]. fold (kept bs).
    destruct (keptUrl b) as [u |] eqn:Hk.
    + destruct (processBookmark_fragment b summary convs s Hk)
        as (f & convs1 & s1 & H & Hf).
      rewrite (bind_ok _ _ _ H). cbv beta.
      destruct (IH (summary ++ f) convs1 s1) as (frags & convs' & s' & H' & HF).
      exists (f :: frags), convs', s'. split.
      * eapply eq_trans; [ exact H' | ].
        cbn [List.concat]. now rewrite app_assoc.
      * cbn [app]. now constructor.
    + rewrite (bind_ok _ _ _ (processBookmark_skip b (summary, convs) s Hk)).
      apply IH.
Qed.

End Fragments.




(** ** The length threshold of extraction *)

Lemma falsy_or_short (text : jsstring) (n : nat) :
  0 < n -> negb (truthy text) || (length text <? n) = (length text <? n).
Proof.
  intros Hn. destruct text as [| c t]; cbn [truthy negb orb]; [| reflexivity ].
  symmetry. apply Nat.ltb_lt. exact Hn.
Qed.

Lemma extractContent_eq env b page s :
  extractContent env b page s =
  let text := normalizeContent (selectMainContent env page) in
  if length text <? 50 then (Throw notEnoughContent, s)
  else (Ok (pageTitle env b page, text), s).
Proof.
  unfold extractContent. cbv zeta.
  rewrite falsy_or_short by lia.
  destruct (length _ <? 50); reflexivity.
Qed.



(** ** The content selectors and the fall back to the body *)

(** The fall back is taken exactly when the text the selector loop leaves in
    [mainContent] is shorter than 100 characters. *)
Lemma selectMainContent_eq env (page : Page env) :
  selectMainContent env page =
  let (page', mainContent) := forSelectors env contentSelectors page [] in
  if length mainContent <? 100 then bodyText env page' else mainContent.
Proof.
  unfold selectMainContent, bodyText.
  destruct (forSelectors env contentSelectors page []) as [page' mc].
  rewrite falsy_or_short by lia.
  destruct (length mc <? 100); [| reflexivity ].
  destruct (cheerio_strip env page' (Tag "body") noiseSelectors); reflexivity.
Qed.

(** The loop stops at a matching selector whose text exceeds 100
    characters. *)
Lemma forSelectors_break env (page : Page env) selector rest mainContent :
  0 < cheerio_length env page selector ->
  100 < length (candidateText env page selector) ->
  forSelectors env (selector :: rest) page mainContent
  = (fst (cheerio_strip env page selector noiseSelectors),
     candidateText env page selector).
Proof.
  intros Hm Hl. cbn [forSelectors]. unfold candidateText in *.
  apply Nat.ltb_lt in Hm. rewrite Hm.
  destruct (cheerio_strip env page selector noiseSelectors) as [page' text].
  cbn [fst snd] in *. apply Nat.ltb_lt in Hl. now rewrite Hl.
Qed.

(** C7 at the boundary.  On a page whose only candidate region, the
    [article], has exactly 100 characters of text, no candidate exceeds 100
    characters and the loop runs through every selector; yet the fall back
    to the body is not taken: the result is the article's 100 characters,
    not the text of the body. *)
Lemma hundred_characters_without_fallback :
  let env := Sample.studio Sample.boundaryPage Sample.goodScript in
  let page := Sample.boundaryPage in
  Forall (fun sel => length (candidateText env page sel) <= 100)
    contentSelectors
  /\ length (candidateText env page (Tag "article")) = 100
  /\ bodyText env page = Sample.hundred ++ lit " and the rest of the page"
  /\ selectMainContent env page = Sample.hundred
  /\ selectMainContent env page <> bodyText env page.
Proof.
  cbv zeta. split.
  - unfold contentSelectors.
    repeat (constructor; [ apply Nat.leb_le; vm_compute; reflexivity | ]).
    constructor.
  - split; [ vm_compute; reflexivity | ].
    split; [ vm_compute; reflexivity | ].
    split; [ vm_compute; reflexivity | ].
    intros H. apply (f_equal (@List.length N)) in H.
    vm_compute in H. discriminate H.
Qed.

(** One character more and the loop stops at the article; one character
    less and the body is used. *)
Lemma around_hundred_characters :
  let env := Sample.studio Sample.boundaryPage Sample.goodScript in
  let pageOf text :=
    Dom.Element "html" "" []
      [ Dom.Element "body" "" []
          [ Dom.Element "article" "" [] [ Dom.Text text ];
            Dom.Element "p" "" [] [ Dom.Text (lit " and the rest") ] ] ] in
  selectMainContent env (pageOf (repeat 120%N 101)) = repeat 120%N 101
  /\ selectMainContent env (pageOf (repeat 120%N 99))
     = repeat 120%N 99 ++ lit " and the rest".
Proof. cbv zeta. split; vm_compute; reflexivity. Qed.

(** ** Repeatability with deterministic collaborators *)

Lemma stateless_ret {A} (a : A) : stateless (ret a).
Proof. intros s s'. reflexivity. Qed.

Lemma stateless_throw {A} (e : exn) : stateless (@throw A e).
Proof. intros s s'. reflexivity. Qed.

Lemma stateless_emit (e : Event) : stateless (emit e).
Proof. intros s s'. reflexivity. Qed.

Lemma stateless_bind {A B} (m : M A) (k : A -> M B) :
  stateless m -> (forall a, stateless (k a)) -> stateless (bind m k).
Proof.
  intros Hm Hk s s'. unfold bind. specialize (Hm s s').
  destruct (m s) as [[a | e] s1], (m s') as [[a' | e'] s1'];
    cbn [fst] in Hm; try discriminate Hm; inversion Hm; subst;
    [ apply Hk | reflexivity ].
Qed.

Lemma stateless_try_catch {A} (m : M A) (h : exn -> M A) :
  stateless m -> (forall e, stateless (h e)) -> stateless (try_catch m h).
Proof.
  intros Hm Hh s s'. unfold try_catch. specialize (Hm s s').
  destruct (m s) as [[a | e] s1], (m s') as [[a' | e'] s1'];
    cbn [fst] in Hm; try discriminate Hm; inversion Hm; subst;
    [ reflexivity | apply Hh ].
Qed.

Create HintDb stateless.
#[global] Hint Resolve stateless_ret stateless_throw stateless_emit : stateless.

Section Stubbed.

Variable env : Env.
Hypothesis det : stubbed env.

Lemma stateless_axios_call u timeout : stateless (axios_call env u timeout).
Proof.
  intros s s'. rewrite !axios_call_eq. cbn [fst].
  now rewrite (proj1 det (now s) (now s') u).
Qed.

Lemma stateless_gemini_post prompt : stateless (gemini_post env prompt).
Proof.
  intros s s'. rewrite !gemini_post_eq. cbn [fst].
  now rewrite (proj1 (proj2 det) (now s) (now s') prompt).
Qed.

Lemma stateless_elevenlabs_post v x : stateless (elevenlabs_post env v x).
Proof.
  intros s s'. rewrite !elevenlabs_post_eq. cbn [fst].
  now rewrite (proj1 (proj2 (proj2 det)) (now s) (now s') v x).
Qed.

Lemma stateless_retryLoop u timeout maxRetries remaining : forall i,
  stateless (retryLoop env u timeout maxRetries i remaining).
Proof.
  induction remaining as [| n IH]; intros i; cbn [retryLoop].
  - apply stateless_ret.
  - apply stateless_try_catch.
    + apply stateless_bind; [ apply stateless_axios_call | ].
      intros a. apply stateless_ret.
    + intros e. destruct (i =? maxRetries - 1); [ apply stateless_throw | ].
      apply stateless_bind; [ apply stateless_emit | intros _; apply IH ].
Qed.

Lemma stateless_firstCandidateText d : stateless (firstCandidateText d).
Proof. destruct d; cbn; auto with stateless. Qed.

Lemma stateless_generateSummary content : stateless (generateSummary env content).
Proof.
  unfold generateSummary. apply stateless_try_catch; auto with stateless.
  apply stateless_bind;
    [ apply stateless_gemini_post | apply stateless_firstCandidateText ].
Qed.

Lemma stateless_generateConversationalScript text t :
  stateless (generateConversationalScript env text t).
Proof.
  unfold generateConversationalScript.
  apply stateless_try_catch; auto with stateless.
  apply stateless_bind;
    [ apply stateless_gemini_post | apply stateless_firstCandidateText ].
Qed.

Lemma stateless_generateSpeech text isAlex :
  stateless (generateSpeech env text isAlex).
Proof.
  unfold generateSpeech. apply stateless_try_catch; auto with stateless.
  apply stateless_elevenlabs_post.
Qed.

Lemma stateless_lineText line : stateless (lineText line).
Proof.
  unfold lineText. destruct (nth_error _ 1); auto with stateless.
Qed.

Lemma stateless_forLines lines : forall acc, stateless (forLines env lines acc).
Proof.
  induction lines as [| line rest IH]; intros acc; cbn [forLines].
  - apply stateless_ret.
  - destruct (truthy (trim line)); [| apply IH ].
    apply stateless_bind; [ apply stateless_lineText | intros text ].
    apply stateless_bind; [| intros acc'; apply IH ].
    apply stateless_try_catch; auto with stateless.
    apply stateless_bind; [ apply stateless_generateSpeech | ].
    auto with stateless.
Qed.

Lemma stateless_extractContent b page : stateless (extractContent env b page).
Proof.
  intros s s'. rewrite !extractContent_eq. cbv zeta.
  destruct (length _ <? 50); reflexivity.
Qed.

Lemma stateless_fetchAndExtract b u : stateless (fetchAndExtract env b u).
Proof.
  unfold fetchAndExtract. apply stateless_bind.
  - apply stateless_retryLoop.
  - intros [page |]; [ apply stateless_extractContent | apply stateless_throw ].
Qed.

Lemma stateless_generateContent t mc : stateless (generateContent env t mc).
Proof.
  unfold generateContent.
  apply stateless_bind; [ apply stateless_generateSummary | intros sc ].
  apply stateless_bind;
    [ apply stateless_generateConversationalScript | intros conv ].
  apply stateless_ret.
Qed.

Lemma stateless_processBookmark b acc : stateless (processBookmark env b acc).
Proof.
  destruct acc as [summary convs]. unfold processBookmark.
  destruct (keptUrl b) as [u |]; [| apply stateless_ret ].
  apply stateless_try_catch; auto with stateless.
  apply stateless_bind; [ apply stateless_fetchAndExtract | intros [t mc] ].
  apply stateless_try_catch; auto with stateless.
  apply stateless_bind; [ apply stateless_generateContent | intros [sc conv] ].
  apply stateless_ret.
Qed.

Lemma stateless_forBookmarks bs : forall acc,
  stateless (forBookmarks env bs acc).
Proof.
  induction bs as [| b bs IH]; intros acc; cbn [forBookmarks].
  - apply stateless_ret.
  - apply stateless_bind; [ apply stateless_processBookmark | apply IH ].
Qed.

(** *** The scratch file *)

(** When the audio stage returns, the scratch file holds the concatenation
    of the buffers the loop collected. *)
Lemma generatePodcastAudio_file conv s p s' :
  generatePodcastAudio env conv s = (Ok p, s') ->
  exists bufs s0,
    forLines env (split LF conv) [] s = (Ok bufs, s0)
    /\ tempFile s' = Some (List.concat bufs).
Proof.
  unfold generatePodcastAudio. rewrite try_rethrow. cbv zeta. unfold bind at 1.
  destruct (forLines env (split LF conv) [] s) as [[bufs | e] s0];
    [| discriminate ].
  destruct (List.length bufs =? 0); [ discriminate | ].
  unfold bind. rewrite writeFileAsync_eq.
  destruct (diskFault env (now s0)); [ discriminate | ].
  intros H. inversion H; subst. exists bufs, s0. split; reflexivity.
Qed.

Lemma stateless_generatePodcastAudio conv :
  stateless (generatePodcastAudio env conv).
Proof.
  unfold generatePodcastAudio. apply stateless_try_catch; auto with stateless.
  cbv zeta. apply stateless_bind; [ apply stateless_forLines | intros bufs ].
  destruct (List.length bufs =? 0); [ apply stateless_throw | ].
  apply stateless_bind; [| auto with stateless ].
  intros s s'. rewrite !writeFileAsync_eq.
  rewrite (proj2 (proj2 (proj2 det)) (now s) (now s')).
  destruct (diskFault env (now s')); reflexivity.
Qed.

(** Reading the scratch file back and removing it. *)
Lemma read_and_unlink d s :
  tempFile s = Some d ->
  fst ((audioBuffer <- readFileSync env ;;
        try_catch (unlinkAsync env ;;; ret (Some audioBuffer))
                  (fun error => ret (Some audioBuffer))) s)
  = match diskFault env (now s) with
    | Some e => Throw e
    | None => Ok (Some d)
    end.
Proof.
  intros Hd. unfold bind at 1. rewrite readFileSync_eq, Hd.
  destruct (diskFault env (now s)); [ reflexivity | ].
  unfold try_catch, bind.
  destruct (unlinkAsync env (log EvReadFile s)) as [[[] | e] s2]; reflexivity.
Qed.

Lemma stateless_podcastAudio convs : stateless (podcastAudio env convs).
Proof.
  intros s s'. unfold podcastAudio.
  destruct (0 <? List.length convs); [| reflexivity ].
  cbv zeta. unfold try_catch at 1 3. unfold bind at 1 4.
  pose proof (stateless_generatePodcastAudio (join [LF; LF] convs) s s') as Hg.
  destruct (generatePodcastAudio env (join [LF; LF] convs) s)
    as [[p | e] s1] eqn:E1;
  destruct (generatePodcastAudio env (join [LF; LF] convs) s')
    as [[p' | e'] s1'] eqn:E2;
    cbn [fst] in Hg; try discriminate Hg; [| reflexivity ].
  destruct (generatePodcastAudio_file _ _ E1) as (bufs & s0 & F1 & T1).
  destruct (generatePodcastAudio_file _ _ E2) as (bufs' & s0' & F2 & T2).
  pose proof (stateless_forLines (split LF (join [LF; LF] convs)) [] s s')
    as Hl.
  rewrite F1, F2 in Hl. cbn [fst] in Hl. inversion Hl; subst bufs'.
  pose proof (read_and_unlink s1 T1) as R1.
  pose proof (read_and_unlink s1' T2) as R2.
  rewrite (proj2 (proj2 (proj2 det)) (now s1) (now s1')) in R1.
  destruct ((audioBuffer <- readFileSync env ;;
             try_catch (unlinkAsync env ;;; ret (Some audioBuffer))
               (fun error => ret (Some audioBuffer))) s1) as [r1 t1].
  destruct ((audioBuffer <- readFileSync env ;;
             try_catch (unlinkAsync env ;;; ret (Some audioBuffer))
               (fun error => ret (Some audioBuffer))) s1') as [r2 t2].
  cbn [fst] in R1, R2. subst r1 r2.
  destruct (diskFault env (now s1')); reflexivity.
Qed.

Lemma stateless_generateSummaryAndPodcast bs :
  stateless (generateSummaryAndPodcast env bs).
Proof.
  unfold generateSummaryAndPodcast.
  apply stateless_bind; [ apply stateless_forBookmarks | intros [summary convs] ].
  apply stateless_bind; [ apply stateless_podcastAudio | intros a ].
  apply stateless_ret.
Qed.

End Stubbed.

(** C8.  With deterministic collaborators, running the pipeline on a
    bookmark list and then running it again on the same list, in the state
    the first run left, gives the same summary document and the same audio,
    hence audio of the same length; more generally the result does not
    depend on the state the run starts in. *)
Theorem pipeline_is_repeatable (env : Env) (bookmarks : list Bookmark)
    (s : State) :
  stubbed env ->
  (exists r1 s1 r2 s2,
      generateSummaryAndPodcast env bookmarks s = (Ok r1, s1)
      /\ generateSummaryAndPodcast env bookmarks s1 = (Ok r2, s2)
      /\ summary r1 = summary r2
      /\ audioBuffer r1 = audioBuffer r2
      /\ option_map (@List.length Byte.byte) (audioBuffer r1)
         = option_map (@List.length Byte.byte) (audioBuffer r2))
  /\ (forall s',
        fst (generateSummaryAndPodcast env bookmarks s)
        = fst (generateSummaryAndPodcast env bookmarks s')).
Proof.
  intros det. split.
  - destruct (generateSummaryAndPodcast_total env bookmarks s)
      as (r1 & s1 & H1).
    destruct (generateSummaryAndPodcast_total env bookmarks s1)
      as (r2 & s2 & H2).
    pose proof (stateless_generateSummaryAndPodcast det bookmarks s s1) as E.
    rewrite H1, H2 in E. cbn [fst] in E. inversion E; subst r2.
    exists r1, s1, r1, s2. repeat split; assumption.
  - intros s'. now apply stateless_generateSummaryAndPodcast.
Qed.

Lemma studio_is_stubbed page script : stubbed (Sample.studio page script).
Proof. repeat split. Qed.

(** Two runs in a row over three bookmarks, one of them not a URL. *)
Lemma pipeline_is_repeatable_example :
  let env := Sample.studio Sample.goodPage Sample.goodScript in
  let bookmarks :=
    [ Sample.bm "https://good.example/a" "A";
      Sample.bm "not-a-url" "";
      Sample.bm "https://good.example/c" "C" ] in
  exists r1 s1 r2 s2,
    generateSummaryAndPodcast env bookmarks Sample.initial = (Ok r1, s1)
    /\ generateSummaryAndPodcast env bookmarks s1 = (Ok r2, s2)
    /\ summary r1 = summary r2
    /\ audioBuffer r1 = audioBuffer r2
    /\ option_map (@List.length Byte.byte) (audioBuffer r1)
       = option_map (@List.length Byte.byte) (audioBuffer r2).
Proof.
  cbv zeta.
  exact (proj1 (pipeline_is_repeatable
                  [ Sample.bm "https://good.example/a" "A";
                    Sample.bm "not-a-url" "";
                    Sample.bm "https://good.example/c" "C" ]
                  Sample.initial
                  (studio_is_stubbed Sample.goodPage Sample.goodScript))).
Defined.

(** The run of that example: two fragments, the audio of the four lines of
    the two scripts, and no scratch file left behind. *)
Lemma pipeline_example_run :
  let env := Sample.studio Sample.goodPage Sample.goodScript in
  let a := Sample.bm "https://good.example/a" "A" in
  let c := Sample.bm "https://good.example/c" "C" in
  let out := generateSummaryAndPodcast env [a; Sample.bm "not-a-url" ""; c]
               Sample.initial in
  fst out
  = Ok (mkResult
          (summaryHeader
           ++ successFragment env a (lit "https://good.example/a") (lit "A")
                (lit "A short summary.")
           ++ successFragment env c (lit "https://good.example/c") (lit "C")
                (lit "A short summary."))
          (Some [Byte.x01; Byte.x02; Byte.x01; Byte.x02])
          (lit "podcast-audio"))
  /\ ttsCalls (trace (snd out))
     = [ (voiceAlex, lit "Hello there"); (voiceSarah, lit "Hi");
         (voiceAlex, lit "Hello there"); (voiceSarah, lit "Hi") ]
  /\ tempFile (snd out) = None.
Proof. cbv zeta. repeat split; vm_compute; reflexivity. Qed.

(** The scenario of the design document: a page that can be fetched, a
    bookmark that is not a URL and a page that cannot be fetched give two
    fragments, a success and an error, and the audio of the first page's
    dialogue only. *)
Lemma end_to_end_scenario :
  let a := mkBookmark (Some (lit "https://good.example/a")) (Some (lit "A"))
             None in
  let n := mkBookmark (Some (lit "not-a-url")) None None in
  let b := mkBookmark (Some (lit "https://bad.example/b")) (Some (lit "B"))
             None in
  let out := generateSummaryAndPodcast Sample.mixed [a; n; b] Sample.initial in
  fst out
  = Ok (mkResult
          (summaryHeader
           ++ successFragment Sample.mixed a (lit "https://good.example/a")
                (lit "A") (lit "A short summary.")
           ++ fetchErrorFragment Sample.mixed b (lit "https://bad.example/b")
                (lit "connect ECONNREFUSED"))
          (Some [Byte.x01; Byte.x02])
          (lit "podcast-audio"))
  /\ attemptsOf (trace (snd out)) = 4
  /\ ttsCalls (trace (snd out))
     = [ (voiceAlex, lit "Hello there"); (voiceSarah, lit "Hi") ].
Proof. cbv zeta. repeat split; vm_compute; reflexivity. Qed.

(* ================================================================== *)
(** * Further properties of the server *)
(* ================================================================== *)

(** ** The retry loop for any number of attempts *)

Section RetryLoop.

Variable env : Env.
Variables (u : jsstring) (timeout : N).

(** Every remaining attempt fails: the loop throws the last error. *)
Lemma retryLoop_all_fail (err : nat -> exn) remaining : forall i n s,
  i + remaining = n -> 1 <= remaining ->
  (forall j, j < remaining -> axios env (now s + 2 * j) u = inl (err j)) ->
  retryLoop env u timeout n i remaining s
  = (Throw (err (remaining - 1)),
     mkState (trace s ++ failedAttempts u timeout i remaining) (tempFile s)).
Proof.
  revert err. induction remaining as [| r IH]; intros err i n s Hn Hr Hf;
    [ lia | ].
  cbn [retryLoop]. unfold try_catch at 1, bind at 1. rewrite axios_call_eq.
  pose proof (Hf 0 ltac:(lia)) as H0. rewrite Nat.mul_0_r, Nat.add_0_r in H0.
  rewrite H0. destruct r as [| r'].
  - assert (E : (i =? n - 1) = true) by (apply Nat.eqb_eq; lia).
    rewrite E. reflexivity.
  - assert (E : (i =? n - 1) = false) by (apply Nat.eqb_neq; lia).
    rewrite E. unfold bind at 1, sleep, emit.
    rewrite (IH (fun j => err (S j)) (i + 1) n); [ | lia | lia | ].
    + cbn [failedAttempts log trace tempFile Nat.sub].
      rewrite Nat.sub_0_r, <- !app_assoc. reflexivity.
    + intros j Hj. rewrite !now_log.
      replace (S (S (now s)) + 2 * j) with (now s + 2 * S j) by lia.
      apply Hf. lia.
Qed.

(** The first [k] attempts fail and the next one succeeds: the loop returns
    its response and asks no more. *)
Lemma retryLoop_first_success page k : forall i remaining n s,
  i + remaining = n -> k < remaining ->
  (forall j, j < k -> exists e, axios env (now s + 2 * j) u = inl e) ->
  axios env (now s + 2 * k) u = inr page ->
  retryLoop env u timeout n i remaining s
  = (Ok (Some page),
     mkState (trace s ++ retriedAttempts u timeout i k ++ [EvGet u timeout])
       (tempFile s)).
Proof.
  induction k as [| k IH]; intros i remaining n s Hn Hk Hf Hs;
    (destruct remaining as [| r]; [ lia | ]);
    cbn [retryLoop]; unfold try_catch at 1, bind at 1; rewrite axios_call_eq.
  - rewrite Nat.mul_0_r, Nat.add_0_r in Hs. rewrite Hs. reflexivity.
  - destruct (Hf 0 ltac:(lia)) as [e H0].
    rewrite Nat.mul_0_r, Nat.add_0_r in H0. rewrite H0.
    assert (E : (i =? n - 1) = false) by (apply Nat.eqb_neq; lia).
    rewrite E. unfold bind at 1, sleep, emit.
    rewrite (IH (i + 1) r n); [ | lia | lia | | ].
    + cbn [retriedAttempts log trace tempFile app].
      rewrite <- !app_assoc. reflexivity.
    + intros j Hj. rewrite !now_log.
      replace (S (S (now s)) + 2 * j) with (now s + 2 * S j) by lia.
      apply Hf. lia.
    + rewrite !now_log.
      replace (S (S (now s)) + 2 * k) with (now s + 2 * S k) by lia.
      exact Hs.
Qed.

Lemma attemptsOf_failedAttempts n : forall i,
  attemptsOf (failedAttempts u timeout i n) = n.
Proof.
  induction n as [| n IH]; intros i; [ reflexivity | ].
  destruct n as [| n']; [ reflexivity | ].
  specialize (IH (i + 1)). unfold attemptsOf in *.
  cbn [failedAttempts filter List.length] in *. now rewrite IH.
Qed.

Lemma delaysOf_failedAttempts n : forall i,
  delaysOf (failedAttempts u timeout i n)
  = map (fun k => 1000 * k) (seq (i + 1) (n - 1)).
Proof.
  induction n as [| n IH]; intros i; [ reflexivity | ].
  destruct n as [| n']; [ reflexivity | ].
  specialize (IH (i + 1)). unfold delaysOf in *.
  cbn [failedAttempts flat_map app Nat.sub seq map] in *.
  rewrite IH. cbn [Nat.sub]. rewrite Nat.sub_0_r.
  replace (i + 1 + 1) with (S (i + 1)) by lia. reflexivity.
Qed.

Lemma attemptsOf_retriedAttempts k : forall i,
  attemptsOf (retriedAttempts u timeout i k ++ [EvGet u timeout]) = S k.
Proof.
  induction k as [| k IH]; intros i; [ reflexivity | ].
  specialize (IH (i + 1)). unfold attemptsOf in *.
  cbn [retriedAttempts filter List.length app] in *. now rewrite IH.
Qed.

Lemma delaysOf_retriedAttempts k : forall i,
  delaysOf (retriedAttempts u timeout i k ++ [EvGet u timeout])
  = map (fun j => 1000 * j) (seq (i + 1) k).
Proof.
  induction k as [| k IH]; intros i; [ reflexivity | ].
  specialize (IH (i + 1)). unfold delaysOf in *.
  cbn [retriedAttempts flat_map app seq map] in *.
  rewrite IH. replace (i + 1 + 1) with (S (i + 1)) by lia. reflexivity.
Qed.

End RetryLoop.

(** X1.  For any [maxRetries] of at least 1, when every attempt fails
    [axiosWithRetry] makes exactly [maxRetries] requests, waits 1 s, 2 s, ...,
    [maxRetries - 1] s between them and then throws the error of the last
    attempt; nothing but these requests and delays happens. *)
Theorem axiosWithRetry_exhausted (env : Env) (u : jsstring) (timeout : N)
    (maxRetries : nat) (err : nat -> exn) (s : State) :
  1 <= maxRetries ->
  (forall j, j < maxRetries -> axios env (now s + 2 * j) u = inl (err j)) ->
  let out := axiosWithRetry env u timeout maxRetries s in
  fst out = Throw (err (maxRetries - 1))
  /\ snd out
     = mkState (trace s ++ failedAttempts u timeout 0 maxRetries) (tempFile s)
  /\ attemptsOf (since s (snd out)) = maxRetries
  /\ delaysOf (since s (snd out))
     = map (fun k => 1000 * k) (seq 1 (maxRetries - 1)).
Proof.
  intros Hn Hf. cbv zeta. unfold axiosWithRetry.
  rewrite (@retryLoop_all_fail env u timeout err maxRetries 0 maxRetries s
             eq_refl Hn Hf).
  cbn [fst snd]. rewrite since_app.
  split; [ reflexivity | split; [ reflexivity | split ] ].
  - apply attemptsOf_failedAttempts.
  - apply (delaysOf_failedAttempts u timeout maxRetries 0).
Qed.

(** Five attempts against a network that is down. *)
Lemma axiosWithRetry_exhausted_example :
  let out := axiosWithRetry Sample.offline (lit "https://bad.example/b")
               requestTimeout 5 Sample.initial in
  fst out = Throw Sample.refused
  /\ attemptsOf (since Sample.initial (snd out)) = 5
  /\ delaysOf (since Sample.initial (snd out)) = [1000; 2000; 3000; 4000].
Proof.
  cbv zeta.
  destruct (@axiosWithRetry_exhausted Sample.offline
              (lit "https://bad.example/b") requestTimeout 5
              (fun _ => Sample.refused) Sample.initial)
    as (H1 & _ & H3 & H4); [ lia | reflexivity | ].
  split; [ exact H1 | split; [ exact H3 | exact H4 ] ].
Defined.

(** X2.  When the first [k] attempts fail and attempt [k + 1] succeeds,
    with [k < maxRetries], [axiosWithRetry] returns the response of that
    attempt after [k + 1] requests and the delays 1 s, ..., [k] s, and makes
    no further request; with [maxRetries = 0] it makes no request at all and
    returns [undefined]. *)
Theorem axiosWithRetry_first_success (env : Env) (u : jsstring) (timeout : N) :
  (forall maxRetries k page s,
      k < maxRetries ->
      (forall j, j < k -> exists e, axios env (now s + 2 * j) u = inl e) ->
      axios env (now s + 2 * k) u = inr page ->
      let out := axiosWithRetry env u timeout maxRetries s in
      fst out = Ok (Some page)
      /\ attemptsOf (since s (snd out)) = S k
      /\ delaysOf (since s (snd out)) = map (fun j => 1000 * j) (seq 1 k)
      /\ tempFile (snd out) = tempFile s)
  /\ (forall s, axiosWithRetry env u timeout 0 s = (Ok None, s)).
Proof.
  split; [| reflexivity ].
  intros maxRetries k page s Hk Hf Hs. cbv zeta. unfold axiosWithRetry.
  rewrite (@retryLoop_first_success env u timeout page k 0 maxRetries
             maxRetries s eq_refl Hk Hf Hs).
  cbn [fst snd]. rewrite since_app.
  split; [ reflexivity | split; [| split; [| reflexivity ] ] ].
  - apply attemptsOf_retriedAttempts.
  - apply (delaysOf_retriedAttempts u timeout k 0).
Qed.

(** The third of four attempts succeeds. *)
Lemma axiosWithRetry_first_success_example :
  let out := axiosWithRetry (flaky 2) (lit "https://good.example/a")
               requestTimeout 4 Sample.initial in
  fst out = Ok (Some Sample.goodPage)
  /\ attemptsOf (since Sample.initial (snd out)) = 3
  /\ delaysOf (since Sample.initial (snd out)) = [1000; 2000].
Proof.
  cbv zeta.
  destruct (proj1 (axiosWithRetry_first_success (flaky 2)
                     (lit "https://good.example/a") requestTimeout)
              4 2 Sample.goodPage Sample.initial)
    as (H1 & H2 & H3 & _).
  - lia.
  - intros j Hj. exists Sample.refused.
    destruct j as [| [| j]]; [ reflexivity | reflexivity | lia ].
  - reflexivity.
  - split; [ exact H1 | split; [ exact H2 | exact H3 ] ].
Defined.

(** ** Strings: trimming and global replacement *)

Lemma takeWhile_dropWhile p s : takeWhile p s ++ dropWhile p s = s.
Proof.
  induction s as [| c t IH]; [ reflexivity | ]. cbn.
  destruct (p c); [ cbn; now rewrite IH | reflexivity ].
Qed.

Lemma dropWhile_head p s :
  match dropWhile p s with [] => True | c :: _ => p c = false end.
Proof.
  induction s as [| c t IH]; [ exact I | ]. cbn.
  destruct (p c) eqn:E; [ exact IH | exact E ].
Qed.

Lemma length_dropWhile p s : List.length (dropWhile p s) <= List.length s.
Proof.
  induction s as [| c t IH]; [ reflexivity | ]. cbn.
  destruct (p c); cbn; lia.
Qed.

Lemma forallb_dropWhile Q p s :
  forallb Q s = true -> forallb Q (dropWhile p s) = true.
Proof.
  induction s as [| c t IH]; [ reflexivity | ]. cbn [dropWhile].
  destruct (p c); [| trivial ].
  cbn [forallb]. intros H. apply andb_prop in H as [_ H]. now apply IH.
Qed.

Lemma forallb_rev_true Q (s : jsstring) :
  forallb Q s = true -> forallb Q (rev s) = true.
Proof.
  rewrite !forallb_forall. intros H x Hx. apply H. now apply in_rev.
Qed.

Lemma forallb_trim Q s : forallb Q s = true -> forallb Q (trim s) = true.
Proof.
  intros H. unfold trim.
  apply forallb_rev_true, forallb_dropWhile, forallb_rev_true.
  now apply forallb_dropWhile.
Qed.

Lemma length_trim s : length (trim s) <= length s.
Proof.
  unfold trim, length. rewrite length_rev.
  etransitivity; [ apply length_dropWhile | ]. rewrite length_rev.
  apply length_dropWhile.
Qed.

(** Trimming removes a prefix and a suffix. *)
Lemma trim_middle s : exists a b, s = a ++ trim s ++ b.
Proof.
  unfold trim. exists (takeWhile isSpace s).
  exists (rev (takeWhile isSpace (rev (dropWhile isSpace s)))).
  rewrite <- rev_app_distr, takeWhile_dropWhile, rev_involutive.
  now rewrite takeWhile_dropWhile.
Qed.

Lemma trimmed_trim s : trimmed (trim s) = true.
Proof.
  unfold trimmed. apply andb_true_intro. split.
  - destruct (trim s) as [| c r] eqn:E; [ reflexivity | ].
    unfold trim in E.
    pose proof (takeWhile_dropWhile isSpace (rev (dropWhile isSpace s))) as D.
    apply (f_equal (@rev N)) in D. rewrite rev_app_distr, rev_involutive in D.
    rewrite E in D. pose proof (dropWhile_head isSpace s) as Hd.
    rewrite <- D in Hd. cbn in Hd. now rewrite Hd.
  - unfold trim. rewrite rev_involutive.
    pose proof (dropWhile_head isSpace (rev (dropWhile isSpace s))) as Hd.
    destruct (dropWhile isSpace (rev (dropWhile isSpace s)));
      [ reflexivity | now rewrite Hd ].
Qed.




(** What a replacement lets through, given what the matcher puts in and
    what it copies. *)
Lemma replaceAllFrom_forallb (P Q : N -> bool) (m : matcher) :
  (forall s rep rest, m s = Some (rep, rest) ->
     List.length rest < List.length s
     /\ forallb Q rep = true
     /\ (forallb P s = true -> forallb P rest = true)) ->
  (forall c t, m (c :: t) = None -> P c = true -> Q c = true) ->
  forall fuel s, List.length s <= fuel -> forallb P s = true ->
    forallb Q (replaceAllFrom m fuel s) = true.
Proof.
  intros Hm Hc. induction fuel as [| fuel IH]; intros s Hl HP.
  - destruct s; [ reflexivity | cbn in Hl; lia ].
  - destruct s as [| c t]; [ reflexivity | ]. cbn [replaceAllFrom].
    destruct (m (c :: t)) as [[rep rest] |] eqn:E.
    + destruct (Hm _ _ _ E) as (H1 & H2 & H3).
      rewrite forallb_app, H2. cbn [andb].
      apply IH; [ cbn in *; lia | now apply H3 ].
    + cbn [forallb] in *. apply andb_prop in HP as [Pc Pt].
      rewrite (Hc _ _ E Pc). cbn [andb]. apply IH; [ cbn in Hl; lia | exact Pt ].
Qed.

(** A replacement that never puts in more than it takes out does not
    lengthen the text. *)
Lemma replaceAllFrom_length (m : matcher) :
  (forall s rep rest, m s = Some (rep, rest) ->
     List.length rep + List.length rest <= List.length s) ->
  forall fuel s, List.length (replaceAllFrom m fuel s) <= List.length s.
Proof.
  intros Hm. induction fuel as [| fuel IH]; intros s; [ reflexivity | ].
  destruct s as [| c t]; [ reflexivity | ]. cbn [replaceAllFrom].
  destruct (m (c :: t)) as [[rep rest] |] eqn:E.
  - specialize (Hm _ _ _ E). rewrite length_app. specialize (IH rest). lia.
  - cbn [List.length]. specialize (IH t). lia.
Qed.

Lemma m_spaces_spec s rep rest :
  m_spaces s = Some (rep, rest) ->
  rep = [SP] /\ List.length rest < List.length s
  /\ rest = dropWhile isSpace s.
Proof.
  destruct s as [| c t]; [ discriminate | ]. unfold m_spaces.
  destruct (isSpace c) eqn:E; [| discriminate ].
  intros H. inversion H; subst. split; [ reflexivity | ].
  split; [| reflexivity ]. cbn [dropWhile]. rewrite E.
  pose proof (length_dropWhile isSpace t). cbn [List.length]. lia.
Qed.

Lemma m_spaces_none c t : m_spaces (c :: t) = None -> isSpace c = false.
Proof. unfold m_spaces. destruct (isSpace c); [ discriminate | reflexivity ]. Qed.

Lemma m_newlines_spec s rep rest :
  m_newlines s = Some (rep, rest) ->
  rep = [SP] /\ List.length rest < List.length s
  /\ rest = dropWhile (N.eqb LF) s.
Proof.
  destruct s as [| c t]; [ discriminate | ]. unfold m_newlines.
  destruct (N.eqb c LF) eqn:E; [| discriminate ].
  intros H. inversion H; subst. split; [ reflexivity | ].
  split; [| reflexivity ]. apply N.eqb_eq in E. subst c.
  pose proof (length_dropWhile (N.eqb LF) t). cbn in *. lia.
Qed.

Lemma m_noise_spec s rep rest :
  m_noise s = Some (rep, rest) ->
  rep = [SP] /\ exists c, s = c :: rest.
Proof.
  destruct s as [| c t]; [ discriminate | ]. unfold m_noise.
  destruct (isWord c || isSpace c || isStop c || (c =? 44)%N || (c =? 45)%N);
    [ discriminate | ].
  intros H. inversion H; subst. split; [ reflexivity | now exists c ].
Qed.

Lemma m_noise_none c t :
  m_noise (c :: t) = None ->
  isWord c || isSpace c || isStop c || (c =? 44)%N || (c =? 45)%N = true.
Proof.
  unfold m_noise.
  destruct (isWord c || isSpace c || isStop c || (c =? 44)%N || (c =? 45)%N);
    [ reflexivity | discriminate ].
Qed.

(** After [/\s+/g] every white space character is a space. *)
Lemma collapsed_spaceIsBlank s :
  forallb spaceIsBlank (replaceAll m_spaces s) = true.
Proof.
  unfold replaceAll.
  apply (@replaceAllFrom_forallb (fun _ => true) spaceIsBlank m_spaces).
  - intros x rep rest H. destruct (m_spaces_spec _ H) as (-> & Hl & _).
    split; [ exact Hl | split; [ reflexivity | intros _ ] ].
    now apply forallb_forall.
  - intros c t H _. unfold spaceIsBlank. now rewrite (m_spaces_none _ _ H).
  - reflexivity.
  - now apply forallb_forall.
Qed.

Lemma normalizeContent_plain text :
  forallb plainChar (normalizeContent text) = true.
Proof.
  unfold normalizeContent. apply forallb_trim. unfold replaceAll at 1.
  apply (@replaceAllFrom_forallb spaceIsBlank plainChar m_noise).
  - intros x rep rest H. destruct (m_noise_spec _ H) as (-> & c & ->).
    split; [ cbn; lia | split; [ reflexivity | ] ].
    cbn [forallb]. intros Hx. now apply andb_prop in Hx as [_ Hx].
  - intros c t H Hc. apply m_noise_none in H. unfold plainChar, spaceIsBlank in *.
    destruct (isWord c), (isSpace c), (c =? 32)%N, (isStop c), (c =? 44)%N,
      (c =? 45)%N; cbn in *; congruence.
  - reflexivity.
  - unfold replaceAll at 1.
    apply (@replaceAllFrom_forallb spaceIsBlank spaceIsBlank m_newlines).
    + intros x rep rest H. destruct (m_newlines_spec _ H) as (-> & Hl & ->).
      split; [ exact Hl | split; [ reflexivity | apply forallb_dropWhile ] ].
    + intros c t _ Hc. exact Hc.
    + reflexivity.
    + apply collapsed_spaceIsBlank.
Qed.

Lemma replaceAll_length_le (m : matcher) s :
  (forall x rep rest, m x = Some (rep, rest) ->
     List.length rep + List.length rest <= List.length x) ->
  List.length (replaceAll m s) <= List.length s.
Proof. intros H. unfold replaceAll. now apply replaceAllFrom_length. Qed.

Lemma normalizeContent_length text :
  length (normalizeContent text) <= length text.
Proof.
  unfold normalizeContent.
  etransitivity; [ apply length_trim | ]. unfold length.
  etransitivity; [ apply replaceAll_length_le | ].
  { intros x rep rest H. destruct (m_noise_spec _ H) as (-> & c & ->).
    cbn. lia. }
  etransitivity; [ apply replaceAll_length_le | ].
  { intros x rep rest H. destruct (m_newlines_spec _ H) as (-> & Hl & _).
    cbn. lia. }
  apply replaceAll_length_le.
  intros x rep rest H. destruct (m_spaces_spec _ H) as (-> & Hl & _).
  cbn. lia.
Qed.

(** ** What extraction hands on *)

(** X3.  Whatever the page, the text that extraction hands on consists only
    of letters, digits, underscores, spaces and the punctuation [.,!?-], and
    neither begins nor ends with white space. *)
Theorem extracted_text_is_plain (text : jsstring) :
  forallb plainChar (normalizeContent text) = true
  /\ trimmed (normalizeContent text) = true.
Proof.
  split; [ apply normalizeContent_plain | apply trimmed_trim ].
Qed.

(** X4.  Normalization never lengthens the text, so a page whose selected
    content has fewer than 50 characters always fails extraction with
    [Not enough content extracted]. *)
Theorem short_content_fails_extraction (env : Env) (b : Bookmark)
    (page : Page env) (s : State) :
  length (selectMainContent env page) < 50 ->
  length (normalizeContent (selectMainContent env page))
    <= length (selectMainContent env page)
  /\ extractContent env b page s = (Throw notEnoughContent, s).
Proof.
  intros H. pose proof (normalizeContent_length (selectMainContent env page)) as L.
  split; [ exact L | ]. rewrite extractContent_eq. cbv zeta.
  assert (E : (length (normalizeContent (selectMainContent env page)) <? 50)
              = true) by (apply Nat.ltb_lt; lia).
  now rewrite E.
Qed.

(** A page whose body says only [Hello.] *)
Lemma short_content_fails_extraction_example :
  extractContent (Sample.studio Sample.thinPage Sample.goodScript)
    (Sample.bm "https://thin.example/" "Thin") Sample.thinPage Sample.initial
  = (Throw notEnoughContent, Sample.initial).
Proof.
  apply (short_content_fails_extraction
           (Sample.studio Sample.thinPage Sample.goodScript)
           (Sample.bm "https://thin.example/" "Thin") Sample.thinPage
           Sample.initial).
  vm_compute. lia.
Defined.

(** ** The scraper *)




(** ** The events of the loop over the bookmarks *)

Lemma state_eta s : s = mkState (trace s ++ []) (tempFile s).
Proof. destruct s. cbn. now rewrite app_nil_r. Qed.

Lemma emitsOnly_ret {A} P (a : A) : emitsOnly P (ret a).
Proof. intros s. exists []. split; [ apply state_eta | reflexivity ]. Qed.

Lemma emitsOnly_throw {A} P (e : exn) : emitsOnly P (@throw A e).
Proof. intros s. exists []. split; [ apply state_eta | reflexivity ]. Qed.

Lemma emitsOnly_emit (P : Event -> bool) e : P e = true -> emitsOnly P (emit e).
Proof.
  intros H s. exists [e]. split; [ reflexivity | cbn; now rewrite H ].
Qed.

Lemma emitsOnly_bind {A B} P (m : M A) (k : A -> M B) :
  emitsOnly P m -> (forall a, emitsOnly P (k a)) -> emitsOnly P (bind m k).
Proof.
  intros Hm Hk s. unfold bind. destruct (Hm s) as (l1 & H1 & P1).
  destruct (m s) as [[a | e] s1]; cbn [snd] in *.
  - destruct (Hk a s1) as (l2 & H2 & P2). exists (l1 ++ l2). split.
    + rewrite H2, H1. cbn [trace tempFile]. now rewrite app_assoc.
    + now rewrite forallb_app, P1, P2.
  - exists l1. now split.
Qed.

Lemma emitsOnly_try_catch {A} P (m : M A) (h : exn -> M A) :
  emitsOnly P m -> (forall e, emitsOnly P (h e)) -> emitsOnly P (try_catch m h).
Proof.
  intros Hm Hh s. unfold try_catch. destruct (Hm s) as (l1 & H1 & P1).
  destruct (m s) as [[a | e] s1]; cbn [snd] in *.
  - exists l1. now split.
  - destruct (Hh e s1) as (l2 & H2 & P2). exists (l1 ++ l2). split.
    + rewrite H2, H1. cbn [trace tempFile]. now rewrite app_assoc.
    + now rewrite forallb_app, P1, P2.
Qed.

Lemma emitsOnly_settle {A} P (r : exn + A) : emitsOnly P (settle r).
Proof. destruct r; [ apply emitsOnly_throw | apply emitsOnly_ret ]. Qed.

Lemma emitsOnly_call {A} P ev (f : nat -> exn + A) :
  P ev = true ->
  emitsOnly P (at_time (fun t => emit ev ;;; settle (f t))).
Proof.
  intros H s. unfold at_time.
  apply emitsOnly_bind; [ now apply emitsOnly_emit | ].
  intros _. apply emitsOnly_settle.
Qed.

Section Network.

Variable env : Env.

Lemma network_retryLoop u timeout maxRetries remaining : forall i,
  emitsOnly isNetwork (retryLoop env u timeout maxRetries i remaining).
Proof.
  induction remaining as [| n IH]; intros i; cbn [retryLoop].
  - apply emitsOnly_ret.
  - apply emitsOnly_try_catch.
    + apply emitsOnly_bind; [ now apply emitsOnly_call | ].
      intros a. apply emitsOnly_ret.
    + intros e. destruct (i =? maxRetries - 1); [ apply emitsOnly_throw | ].
      apply emitsOnly_bind; [ now apply emitsOnly_emit | intros _; apply IH ].
Qed.

Lemma network_firstCandidateText d : emitsOnly isNetwork (firstCandidateText d).
Proof.
  destruct d; cbn;
    [ apply emitsOnly_throw | apply emitsOnly_throw | apply emitsOnly_ret ].
Qed.

Lemma network_generateContent t mc :
  emitsOnly isNetwork (generateContent env t mc).
Proof.
  unfold generateContent, generateSummary, generateConversationalScript.
  apply emitsOnly_bind.
  - apply emitsOnly_try_catch; [| intros e; apply emitsOnly_throw ].
    apply emitsOnly_bind;
      [ now apply emitsOnly_call | apply network_firstCandidateText ].
  - intros sc. apply emitsOnly_bind; [| intros c; apply emitsOnly_ret ].
    apply emitsOnly_try_catch; [| intros e; apply emitsOnly_throw ].
    apply emitsOnly_bind;
      [ now apply emitsOnly_call | apply network_firstCandidateText ].
Qed.

Lemma network_fetchAndExtract b u : emitsOnly isNetwork (fetchAndExtract env b u).
Proof.
  unfold fetchAndExtract. apply emitsOnly_bind; [ apply network_retryLoop | ].
  intros [page |]; [| apply emitsOnly_throw ].
  unfold extractContent.
  destruct (negb _ || _); [ apply emitsOnly_throw | apply emitsOnly_ret ].
Qed.

Lemma network_processBookmark b acc :
  emitsOnly isNetwork (processBookmark env b acc).
Proof.
  destruct acc as [summary convs]. unfold processBookmark.
  destruct (keptUrl b) as [u |]; [| apply emitsOnly_ret ].
  apply emitsOnly_try_catch; [| intros e; apply emitsOnly_ret ].
  apply emitsOnly_bind; [ apply network_fetchAndExtract | intros [t mc] ].
  apply emitsOnly_try_catch; [| intros e; apply emitsOnly_ret ].
  apply emitsOnly_bind; [ apply network_generateContent | intros [sc conv] ].
  apply emitsOnly_ret.
Qed.

Lemma network_forBookmarks bs : forall acc,
  emitsOnly isNetwork (forBookmarks env bs acc).
Proof.
  induction bs as [| b bs IH]; intros acc; cbn [forBookmarks].
  - apply emitsOnly_ret.
  - apply emitsOnly_bind; [ apply network_processBookmark | apply IH ].
Qed.

(** *** Text generation for one bookmark *)

Lemma generateSummary_eq content s :
  generateSummary env content s =
  (match gemini env (now s) (summaryPrompt content) with
   | inl e => Throw e
   | inr NoCandidate => Throw invalidGeminiResponse
   | inr (BadCandidate reason) => Throw (TypeError reason)
   | inr (Candidate text) => Ok (trim text)
   end, log (EvGemini (summaryPrompt content)) s).
Proof.
  unfold generateSummary. rewrite try_rethrow. cbv zeta. unfold bind.
  rewrite gemini_post_eq.
  destruct (gemini env (now s) (summaryPrompt content)) as [e | []];
    reflexivity.
Qed.

Lemma generateConversationalScript_eq text t s :
  generateConversationalScript env text t s =
  (match gemini env (now s) (scriptPrompt text t) with
   | inl e => Throw e
   | inr NoCandidate => Throw invalidGeminiResponse
   | inr (BadCandidate reason) => Throw (TypeError reason)
   | inr (Candidate script) => Ok (trim script)
   end, log (EvGemini (scriptPrompt text t)) s).
Proof.
  unfold generateConversationalScript. rewrite try_rethrow. cbv zeta.
  unfold bind. rewrite gemini_post_eq.
  destruct (gemini env (now s) (scriptPrompt text t)) as [e | []];
    reflexivity.
Qed.

Lemma generateContent_eq t mc s :
  generateContent env t mc s =
  match generateSummary env (substring0 2000 mc) s with
  | (Ok sc, s1) =>
      match generateConversationalScript env (substring0 2000 mc) t s1 with
      | (Ok conv, s2) => (Ok (sc, conv), s2)
      | (Throw e, s2) => (Throw e, s2)
      end
  | (Throw e, s1) => (Throw e, s1)
  end.
Proof.
  unfold generateContent. unfold bind at 1.
  destruct (generateSummary env (substring0 2000 mc) s) as [[sc | e] s1];
    [| reflexivity ].
  unfold bind.
  destruct (generateConversationalScript env (substring0 2000 mc) t s1)
    as [[conv | e] s2]; reflexivity.
Qed.

End Network.





(** ** One bookmark, from the answers of the collaborators *)

(** X7.  When the first fetch of a kept bookmark returns a page whose
    normalized text has at least 50 characters and text generation answers
    both requests with a candidate, the bookmark adds the success fragment,
    with the title of the bookmark or of the page and the trimmed summary,
    to the end of the summary document and the trimmed script to the end of
    the list of dialogues; one page request and two generation requests are
    made. *)
Theorem bookmark_success (env : Env) (b : Bookmark) (u : jsstring)
    (page : Page env) (summaryText script : jsstring)
    (summary : jsstring) (convs : list jsstring) (s : State) :
  let text := normalizeContent (selectMainContent env page) in
  let content := substring0 2000 text in
  let t := pageTitle env b page in
  keptUrl b = Some u ->
  axios env (now s) u = inr page ->
  50 <= length text ->
  gemini env (1 + now s) (summaryPrompt content) = inr (Candidate summaryText) ->
  gemini env (2 + now s) (scriptPrompt content t) = inr (Candidate script) ->
  processBookmark env b (summary, convs) s
  = (Ok (summary ++ successFragment env b u t (trim summaryText),
         convs ++ [trim script]),
     mkState (trace s ++ [EvGet u requestTimeout;
                          EvGemini (summaryPrompt content);
                          EvGemini (scriptPrompt content t)])
       (tempFile s)).
Proof.
  cbv zeta. intros Hk Ha Hl Hs Hc. unfold processBookmark. rewrite Hk.
  assert (Hf : fetchAndExtract env b u s
               = (Ok (pageTitle env b page,
                      normalizeContent (selectMainContent env page)),
                  log (EvGet u requestTimeout) s)).
  { unfold fetchAndExtract, bind. rewrite axiosWithRetry_cases. cbv zeta.
    rewrite Ha. rewrite extractContent_eq. cbv zeta.
    apply Nat.ltb_ge in Hl. now rewrite Hl. }
  unfold try_catch at 1. rewrite (bind_ok _ _ _ Hf).
  assert (Hg : generateContent env (pageTitle env b page)
                 (normalizeContent (selectMainContent env page))
                 (log (EvGet u requestTimeout) s)
               = (Ok (trim summaryText, trim script),
                  log (EvGemini (scriptPrompt
                         (substring0 2000
                            (normalizeContent (selectMainContent env page)))
                         (pageTitle env b page)))
                    (log (EvGemini (summaryPrompt
                            (substring0 2000
                               (normalizeContent
                                  (selectMainContent env page)))))
                       (log (EvGet u requestTimeout) s)))).
  { change (1 + now s) with (S (now s)) in Hs.
    change (2 + now s) with (S (S (now s))) in Hc.
    rewrite generateContent_eq, generateSummary_eq, now_log, Hs.
    rewrite generateConversationalScript_eq, !now_log, Hc. reflexivity. }
  unfold try_catch. rewrite (bind_ok _ _ _ Hg).
  unfold ret, log. cbn [trace tempFile]. rewrite <- !app_assoc. reflexivity.
Qed.

(** The sample page with the stubbed generator. *)
Lemma bookmark_success_example :
  let env := Sample.studio Sample.goodPage Sample.goodScript in
  let b := Sample.bm "https://good.example/a" "" in
  exists s',
    processBookmark env b (summaryHeader, []) Sample.initial
    = (Ok (summaryHeader
           ++ successFragment env b (lit "https://good.example/a")
                (lit "Rocq") (lit "A short summary."),
           [Sample.goodScript]), s').
Proof.
  cbv zeta. eexists.
  apply (@bookmark_success (Sample.studio Sample.goodPage Sample.goodScript)
           (Sample.bm "https://good.example/a" "")
           (lit "https://good.example/a") Sample.goodPage
           (lit "A short summary.") Sample.goodScript summaryHeader []
           Sample.initial);
    [ reflexivity | reflexivity | vm_compute; lia | reflexivity | reflexivity ].
Defined.

(** ** How many requests a run makes *)

Lemma attemptsOf_app l1 l2 :
  attemptsOf (l1 ++ l2) = attemptsOf l1 + attemptsOf l2.
Proof. unfold attemptsOf. now rewrite filter_app, length_app. Qed.

Lemma geminiPrompts_app l1 l2 :
  geminiPrompts (l1 ++ l2) = geminiPrompts l1 ++ geminiPrompts l2.
Proof. unfold geminiPrompts. apply flat_map_app. Qed.

Lemma audio_no_network evs :
  forallb isAudio evs = true ->
  attemptsOf evs = 0 /\ geminiPrompts evs = [].
Proof.
  induction evs as [| e evs IH]; [ now split | ].
  cbn [forallb]. intros H. apply andb_prop in H as [He H].
  destruct (IH H) as [IH1 IH2]. unfold attemptsOf, geminiPrompts in *.
  destruct e; try discriminate He; cbn; now split.
Qed.

Lemma tts_is_audio evs : forallb isTts evs = true -> forallb isAudio evs = true.
Proof.
  induction evs as [| e evs IH]; [ reflexivity | ]. cbn [forallb].
  intros H. apply andb_prop in H as [He H]. rewrite (IH H).
  destruct e; try discriminate He; reflexivity.
Qed.

Section Counting.

Variable env : Env.

Lemma fetch_events u timeout s :
  exists evs,
    snd (axiosWithRetry env u timeout defaultMaxRetries s)
      = mkState (trace s ++ evs) (tempFile s)
    /\ 1 <= attemptsOf evs <= 3
    /\ geminiPrompts evs = [].
Proof.
  rewrite axiosWithRetry_cases. cbv zeta.
  destruct (axios env (now s) u);
    [ destruct (axios env (2 + now s) u) | ];
    eexists; (split; [ reflexivity | split; [ cbn; lia | reflexivity ] ]).
Qed.

Lemma fetchAndExtract_state b u s :
  snd (fetchAndExtract env b u s)
  = snd (axiosWithRetry env u requestTimeout defaultMaxRetries s).
Proof.
  unfold fetchAndExtract, bind.
  destruct (axiosWithRetry env u requestTimeout defaultMaxRetries s)
    as [[[page |] | e] s1]; cbn [snd]; try reflexivity.
  rewrite extractContent_eq. cbv zeta. destruct (length _ <? 50); reflexivity.
Qed.

Lemma generateContent_events t mc s :
  exists evs,
    snd (generateContent env t mc s) = mkState (trace s ++ evs) (tempFile s)
    /\ 1 <= List.length (geminiPrompts evs) <= 2
    /\ attemptsOf evs = 0.
Proof.
  rewrite generateContent_eq, generateSummary_eq.
  destruct (gemini env (now s) (summaryPrompt (substring0 2000 mc)))
    as [e | [| reason | text]]; cbn [snd].
  1-3: (eexists; split; [ reflexivity | split; [ cbn; lia | reflexivity ] ]).
  rewrite generateConversationalScript_eq.
  exists [EvGemini (summaryPrompt (substring0 2000 mc));
          EvGemini (scriptPrompt (substring0 2000 mc) t)].
  split; [| split; [ cbn; lia | reflexivity ] ].
  destruct (gemini env _ (scriptPrompt (substring0 2000 mc) t)) as [e | []];
    cbn [snd]; unfold log; cbn [trace tempFile]; now rewrite <- app_assoc.
Qed.

Lemma processBookmark_state b u summary convs s :
  keptUrl b = Some u ->
  snd (processBookmark env b (summary, convs) s)
  = match fetchAndExtract env b u s with
    | (Ok (t, mc), s1) => snd (generateContent env t mc s1)
    | (Throw _, s1) => s1
    end.
Proof.
  intros Hk. unfold processBookmark. rewrite Hk.
  unfold try_catch at 1, bind at 1.
  destruct (fetchAndExtract env b u s) as [[[t mc] | e] s1]; [| reflexivity ].
  unfold try_catch, bind.
  destruct (generateContent env t mc s1) as [[[sc conv] | e] s2]; reflexivity.
Qed.

Lemma processBookmark_events b u acc s :
  keptUrl b = Some u ->
  exists evs,
    snd (processBookmark env b acc s) = mkState (trace s ++ evs) (tempFile s)
    /\ 1 <= attemptsOf evs <= 3
    /\ List.length (geminiPrompts evs) <= 2.
Proof.
  intros Hk. destruct acc as [summary convs].
  rewrite (processBookmark_state b summary convs s Hk).
  pose proof (fetchAndExtract_state b u s) as Hs.
  destruct (fetch_events u requestTimeout s) as (l1 & H1 & A1 & G1).
  rewrite H1 in Hs.
  destruct (fetchAndExtract env b u s) as [[[t mc] | e] s1]; cbn [snd] in Hs.
  - destruct (generateContent_events t mc s1) as (l2 & H2 & G2 & A2).
    exists (l1 ++ l2). rewrite H2, Hs. cbn [trace tempFile].
    rewrite app_assoc, attemptsOf_app, geminiPrompts_app, length_app, G1, A2.
    split; [ reflexivity | cbn [List.length]; lia ].
  - exists l1. rewrite G1. split; [ exact Hs | cbn; lia ].
Qed.

Lemma forBookmarks_events bs : forall acc s,
  exists evs,
    snd (forBookmarks env bs acc s) = mkState (trace s ++ evs) (tempFile s)
    /\ List.length (kept bs) <= attemptsOf evs <= 3 * List.length (kept bs)
    /\ List.length (geminiPrompts evs) <= 2 * List.length (kept bs)
    /\ forallb isNetwork evs = true.
Proof.
  induction bs as [| b bs IH]; intros acc s.
  - exists []. cbn. rewrite app_nil_r. destruct s. repeat split; lia.
  - cbn [forBookmarks]. unfold kept. cbn [flat_map]. fold (kept bs).
    unfold bind.
    destruct (network_processBookmark env b acc s) as (l0 & N0 & F0).
    destruct (processBookmark_total env b acc s) as (acc' & s1 & Hp).
    rewrite Hp in *. cbn [snd] in N0.
    destruct (IH acc' s1) as (l2 & H2 & A2 & G2 & F2).
    destruct (keptUrl b) as [u |] eqn:Hk.
    + destruct (processBookmark_events b acc s Hk) as (l1 & H1 & A1 & G1).
      rewrite Hp in H1. cbn [snd] in H1. exists (l1 ++ l2).
      assert (l0 = l1).
      { rewrite H1 in N0. inversion N0 as [E].
        now apply app_inv_head in E. }
      subst l0. rewrite H2, H1. cbn [trace tempFile app List.length].
      rewrite app_assoc, attemptsOf_app, geminiPrompts_app, length_app,
        forallb_app, F0, F2.
      repeat split; lia.
    + rewrite (processBookmark_skip env b acc s Hk) in Hp.
      inversion Hp; subst s1 acc'. exists l2. cbn [app].
      split; [ exact H2 | repeat split; try lia; exact F2 ].
Qed.

Lemma no_attempt_no_get evs v t :
  attemptsOf evs = 0 -> ~ In (EvGet v t) evs.
Proof.
  unfold attemptsOf. induction evs as [| e evs IH]; intros H E;
    [ exact E | ].
  destruct E as [E | E].
  - subst e. discriminate H.
  - destruct e; cbn in H; try discriminate H; now apply IH.
Qed.

Lemma fetch_request_events u timeout s :
  exists evs,
    snd (axiosWithRetry env u timeout defaultMaxRetries s)
      = mkState (trace s ++ evs) (tempFile s)
    /\ 1 <= attemptsOf evs <= 3
    /\ geminiPrompts evs = []
    /\ (forall v t, In (EvGet v t) evs -> v = u /\ t = timeout).
Proof.
  rewrite axiosWithRetry_cases. cbv zeta.
  destruct (axios env (now s) u);
    [ destruct (axios env (2 + now s) u) | ];
    eexists;
    (split; [ reflexivity | split; [ cbn; lia | split; [ reflexivity | ] ] ]);
    intros v t H; cbn [In] in H;
    repeat (destruct H as [H | H]; [ try discriminate H | ]);
    try contradiction; inversion H; now split.
Qed.

(** One round of the loop over the bookmarks adds the events of one
    bookmark. *)
Lemma processBookmark_bookmarkEvents b acc s :
  exists evs,
    snd (processBookmark env b acc s) = mkState (trace s ++ evs) (tempFile s)
    /\ bookmarkEvents b evs.
Proof.
  unfold bookmarkEvents. destruct (keptUrl b) as [u |] eqn:Hk.
  - destruct (network_processBookmark env b acc s) as (l0 & N0 & F0).
    destruct acc as [summary convs].
    rewrite (processBookmark_state b summary convs s Hk) in *.
    pose proof (fetchAndExtract_state b u s) as Hs.
    destruct (fetch_request_events u requestTimeout s)
      as (l1 & H1 & A1 & G1 & U1).
    rewrite H1 in Hs.
    destruct (fetchAndExtract env b u s) as [[[t mc] | e] s1];
      cbn [snd] in Hs.
    + destruct (generateContent_events t mc s1) as (l2 & H2 & G2 & A2).
      assert (E : l0 = l1 ++ l2).
      { rewrite H2, Hs in N0. cbn [trace tempFile] in N0.
        inversion N0 as [N]. rewrite <- app_assoc in N.
        now apply app_inv_head in N. }
      exists (l1 ++ l2). rewrite H2, Hs. cbn [trace tempFile].
      rewrite app_assoc, attemptsOf_app, geminiPrompts_app, length_app, G1, A2.
      split; [ reflexivity | ].
      split; [ lia | split; [ cbn [List.length]; lia | split ] ].
      * now rewrite <- E.
      * intros v timeout H. apply in_app_or in H as [H | H];
          [ now apply U1 | now apply (@no_attempt_no_get _ _ _ A2) in H ].
    + assert (E : l0 = l1).
      { rewrite Hs in N0. inversion N0 as [N]. now apply app_inv_head in N. }
      exists l1. rewrite G1. split; [ exact Hs | ].
      split; [ exact A1 | split; [ cbn; lia | split; [ now rewrite <- E | exact U1 ] ] ].
  - exists []. split; [| reflexivity ].
    rewrite (processBookmark_skip env b acc s Hk). apply state_eta.
Qed.

(** The events of the loop over the bookmarks, bookmark by bookmark. *)
Lemma forBookmarks_per_bookmark bs : forall acc s,
  exists per,
    snd (forBookmarks env bs acc s)
      = mkState (trace s ++ List.concat per) (tempFile s)
    /\ Forall2 bookmarkEvents bs per.
Proof.
  induction bs as [| b bs IH]; intros acc s.
  - exists []. split; [ apply state_eta | constructor ].
  - cbn [forBookmarks].
    destruct (processBookmark_bookmarkEvents b acc s) as (evs & He & Hb).
    destruct (processBookmark_total env b acc s) as (acc' & s1 & Hp).
    rewrite Hp in He. cbn [snd] in He. subst s1.
    rewrite (bind_ok _ _ _ Hp).
    destruct (IH acc' (mkState (trace s ++ evs) (tempFile s)))
      as (per & Hs & Hf).
    exists (evs :: per). rewrite Hs. cbn [trace tempFile List.concat].
    rewrite app_assoc. split; [ reflexivity | now constructor ].
Qed.

End Counting.

(** ** The audio stage, request by request *)

Lemma ttsCalls_app l1 l2 : ttsCalls (l1 ++ l2) = ttsCalls l1 ++ ttsCalls l2.
Proof. unfold ttsCalls. apply flat_map_app. Qed.

Lemma synthesized_app env l1 : forall t l2,
  synthesized env t (l1 ++ l2)
  = synthesized env t l1 ++ synthesized env (t + List.length l1) l2.
Proof.
  induction l1 as [| e l1 IH]; intros t l2; cbn [app synthesized List.length].
  - now rewrite Nat.add_0_r.
  - rewrite IH, <- app_assoc. now rewrite Nat.add_succ_r.
Qed.

Lemma synthesized_none env P evs :
  (forall e, P e = true -> isTts e = false) ->
  forallb P evs = true -> forall t, synthesized env t evs = [].
Proof.
  intros HP. induction evs as [| e evs IH]; intros H t; [ reflexivity | ].
  cbn [forallb] in H. apply andb_prop in H as [He H].
  cbn [synthesized]. rewrite (IH H). specialize (HP e He).
  destruct e; try discriminate HP; reflexivity.
Qed.

Lemma network_not_tts e : isNetwork e = true -> isTts e = false.
Proof. destruct e; intros H; try discriminate H; reflexivity. Qed.

Lemma disk_not_tts e :
  (isAudio e && negb (isTts e)) = true -> isTts e = false.
Proof. destruct e; intros H; try discriminate H; reflexivity. Qed.

Section AudioStage.

Variable env : Env.

(** The loop over the lines: its requests and what it collects. *)
Lemma forLines_requests lines : forall acc s,
  exists evs,
    snd (forLines env lines acc s) = mkState (trace s ++ evs) (tempFile s)
    /\ forallb isTts evs = true
    /\ ttsCalls evs = map requestFor (spokenLines lines)
    /\ (forall bufs, fst (forLines env lines acc s) = Ok bufs ->
          bufs = acc ++ synthesized env (now s) evs).
Proof.
  induction lines as [| line rest IH]; intros acc s.
  - exists []. cbn. rewrite !app_nil_r. destruct s.
    repeat split. intros bufs H. now inversion H.
  - cbn [spokenLines]. destruct (truthy (trim line)) eqn:Hb.
    + destruct (hasColon line) eqn:Hc.
      * rewrite (forLines_step env line rest acc s Hb Hc). cbv zeta.
        set (voice := if startsWith (lit "Alex:") line
                      then voiceAlex else voiceSarah).
        set (text := formatSpeechText (trim (betweenFirstTwoColons line))).
        change (requestFor line) with (voice, text).
        destruct (elevenlabs env (now s) voice text) as [e | audio] eqn:E.
        -- destruct (IH acc (log (EvTts voice text) s))
             as (evs & Hs & Ft & Hq & Hr).
           exists (EvTts voice text :: evs). rewrite Hs.
           cbn [log trace tempFile forallb isTts andb map ttsCalls flat_map
                  app synthesized].
           rewrite E. fold (ttsCalls evs). rewrite Hq, <- app_assoc.
           repeat split; try assumption.
           intros bufs H. rewrite now_log in Hr. now apply Hr.
        -- destruct (IH (acc ++ [audio]) (log (EvTts voice text) s))
             as (evs & Hs & Ft & Hq & Hr).
           exists (EvTts voice text :: evs). rewrite Hs.
           cbn [log trace tempFile forallb isTts andb map ttsCalls flat_map
                  app synthesized].
           rewrite E. fold (ttsCalls evs). rewrite Hq, <- app_assoc.
           repeat split; try assumption.
           intros bufs H. rewrite now_log in Hr.
           rewrite (Hr bufs H), <- app_assoc. reflexivity.
      * rewrite (forLines_no_colon env line rest acc s Hb Hc).
        exists []. cbn. rewrite app_nil_r. destruct s.
        repeat split. intros bufs H. discriminate H.
    + rewrite (forLines_blank env line rest acc Hb). apply IH.
Qed.

(** Reading the scratch file back and removing it, case by case. *)
Lemma read_and_unlink_eq s1 :
  (audioBuffer <- readFileSync env ;;
   try_catch (unlinkAsync env ;;; ret (Some audioBuffer))
     (fun error => ret (Some audioBuffer))) s1
  = match diskFault env (now s1) with
    | Some e => (Throw e, log EvReadFile s1)
    | None =>
        match tempFile s1 with
        | None => (Throw ENOENT, log EvReadFile s1)
        | Some d =>
            match diskFault env (S (now s1)) with
            | Some _ => (Ok (Some d), log EvUnlink (log EvReadFile s1))
            | None =>
                (Ok (Some d),
                 mkState (trace s1 ++ [EvReadFile; EvUnlink]) None)
            end
        end
    end.
Proof.
  unfold bind at 1. rewrite readFileSync_eq.
  destruct (diskFault env (now s1)); [ reflexivity | ].
  destruct (tempFile s1) as [d |] eqn:E; [| reflexivity ].
  unfold try_catch, bind. rewrite unlinkAsync_eq, now_log.
  destruct (diskFault env (S (now s1))); [ reflexivity | ].
  cbn [log tempFile trace]. rewrite E, <- app_assoc. reflexivity.
Qed.

(** Lines 464-475: the events of the audio stage, the audio it returns and
    what becomes of the scratch file. *)
Lemma podcastAudio_audio convs s :
  exists evs,
    trace (snd (podcastAudio env convs s)) = trace s ++ evs
    /\ forallb isAudio evs = true
    /\ (forall d, fst (podcastAudio env convs s) = Ok (Some d) ->
          d = List.concat (synthesized env (now s) evs)
          /\ synthesized env (now s) evs <> []
          /\ (tempFile (snd (podcastAudio env convs s)) = None
              \/ tempFile (snd (podcastAudio env convs s)) = Some d)
          /\ ((forall t, diskFault env t = None) ->
              tempFile (snd (podcastAudio env convs s)) = None)).
Proof.
  rewrite podcastAudio_eq. destruct (0 <? List.length convs);
    [| exists []; cbn; rewrite app_nil_r;
       split; [ reflexivity | split; [ reflexivity | discriminate ] ] ].
  rewrite generatePodcastAudio_eq.
  destruct (forLines_requests (split LF (join [LF; LF] convs)) [] s)
    as (evs & Hs & Ft & _ & Hr).
  destruct (forLines env (split LF (join [LF; LF] convs)) [] s)
    as [[bufs | e] s0]; cbn [fst snd] in *;
    [| exists evs; rewrite Hs; cbn [trace];
       split; [ reflexivity | split; [ now apply tts_is_audio | discriminate ] ] ].
  specialize (Hr bufs eq_refl). cbn [app] in Hr.
  destruct bufs as [| b bufs]; cbn [List.length Nat.eqb];
    [ exists evs; rewrite Hs; cbn [trace];
      split; [ reflexivity | split; [ now apply tts_is_audio | discriminate ] ]
    | ].
  set (d := List.concat (b :: bufs)) in *.
  assert (Hn : now s0 = now s + List.length evs)
    by (unfold now; rewrite Hs; cbn [trace]; apply length_app).
  destruct (diskFault env (now s0)) as [e |] eqn:Dw.
  { exists (evs ++ [EvWriteFile d]). rewrite Hs. cbn [snd log trace tempFile].
    rewrite forallb_app, (tts_is_audio _ Ft), <- app_assoc.
    split; [ reflexivity | split; [ reflexivity | discriminate ] ]. }
  rewrite read_and_unlink_eq. cbn [tempFile].
  assert (Hsyn : forall tail,
            forallb (fun e => isAudio e && negb (isTts e)) tail = true ->
            synthesized env (now s) (evs ++ EvWriteFile d :: tail)
            = synthesized env (now s) evs).
  { intros tail Ht. rewrite synthesized_app. cbn [synthesized app].
    rewrite (synthesized_none env _ _ disk_not_tts Ht).
    now rewrite app_nil_r. }
  destruct (diskFault env (now (mkState (trace s0 ++ [EvWriteFile d]) (Some d))))
    as [e |] eqn:Dr.
  { exists (evs ++ [EvWriteFile d; EvReadFile]). rewrite Hs.
    cbn [snd log trace tempFile].
    rewrite forallb_app, (tts_is_audio _ Ft), <- !app_assoc.
    split; [ reflexivity | split; [ reflexivity | discriminate ] ]. }
  destruct (diskFault env
              (S (now (mkState (trace s0 ++ [EvWriteFile d]) (Some d)))))
    as [e |] eqn:Du; cbn [tempFile log fst snd trace].
  - exists (evs ++ [EvWriteFile d; EvReadFile; EvUnlink]). rewrite Hs.
    cbn [trace]. rewrite forallb_app, (tts_is_audio _ Ft), <- !app_assoc.
    split; [ reflexivity | split; [ reflexivity | ] ].
    intros d' H. inversion H; subst d'.
    rewrite (Hsyn [EvReadFile; EvUnlink] eq_refl), <- Hr.
    split; [ reflexivity | split; [ discriminate | split ] ].
    + now right.
    + intros Hnone. rewrite Hnone in Du. discriminate Du.
  - exists (evs ++ [EvWriteFile d; EvReadFile; EvUnlink]). rewrite Hs.
    cbn [trace]. rewrite forallb_app, (tts_is_audio _ Ft), <- !app_assoc.
    split; [ reflexivity | split; [ reflexivity | ] ].
    intros d' H. inversion H; subst d'.
    rewrite (Hsyn [EvReadFile; EvUnlink] eq_refl), <- Hr.
    split; [ reflexivity | split; [ discriminate | split ] ].
    + now left.
    + intros _. reflexivity.
Qed.

End AudioStage.

(** ** A run as a whole *)

Section WholeRun.

Variable env : Env.

(** A run is the loop over the bookmarks, which only uses the network,
    followed by the audio stage. *)
Lemma pipeline_split bs s :
  exists summary convs evs0 a s2,
    forBookmarks env bs (summaryHeader, []) s
      = (Ok (summary, convs), mkState (trace s ++ evs0) (tempFile s))
    /\ podcastAudio env convs (mkState (trace s ++ evs0) (tempFile s))
       = (Ok a, s2)
    /\ generateSummaryAndPodcast env bs s
       = (Ok (mkResult summary a (lit "podcast-audio")), s2)
    /\ List.length (kept bs) <= attemptsOf evs0 <= 3 * List.length (kept bs)
    /\ List.length (geminiPrompts evs0) <= 2 * List.length (kept bs)
    /\ forallb isNetwork evs0 = true.
Proof.
  destruct (forBookmarks_total env bs (summaryHeader, []) s)
    as ([summary convs] & s1 & H).
  destruct (forBookmarks_events env bs (summaryHeader, []) s)
    as (evs0 & H0 & A0 & G0 & F0).
  rewrite H in H0. cbn [snd] in H0. subst s1.
  destruct (podcastAudio_total env convs
              (mkState (trace s ++ evs0) (tempFile s))) as (a & s2 & Ha).
  exists summary, convs, evs0, a, s2.
  split; [ exact H | split; [ exact Ha | split ] ].
  - exact (@generateSummaryAndPodcast_eq env _ _ _ _ _ _ _ H Ha).
  - split; [ exact A0 | split; [ exact G0 | exact F0 ] ].
Qed.

Lemma now_app s evs t :
  now (mkState (trace s ++ evs) t) = now s + List.length evs.
Proof. unfold now. cbn [trace]. apply length_app. Qed.

End WholeRun.

(** ** Failure isolation in the audio stage, line by line *)





(** X8.  Every round of the loop over the bookmarks makes at least one and
    at most three page requests, all of them for the URL of its bookmark,
    and at most two text generation requests when the bookmark is kept, and
    adds no event at all when the bookmark is skipped.  The events of a run
    are those of its bookmarks, one round after the other in the order of
    the list, followed by the events of the audio stage, which makes no page
    or text generation request; so a run over [n] kept bookmarks makes
    between [n] and [3 n] page requests and at most [2 n] text generation
    requests. *)
Theorem pipeline_request_bounds (env : Env) (bookmarks : list Bookmark)
    (s : State) :
  let out := generateSummaryAndPodcast env bookmarks s in
  let evs := since s (snd out) in
  trace (snd out) = trace s ++ evs
  /\ List.length (kept bookmarks) <= attemptsOf evs
  /\ attemptsOf evs <= 3 * List.length (kept bookmarks)
  /\ List.length (geminiPrompts evs) <= 2 * List.length (kept bookmarks)
  /\ (forall b acc s0,
        bookmarkEvents b (since s0 (snd (processBookmark env b acc s0))))
  /\ (exists per audio,
        evs = List.concat per ++ audio
        /\ Forall2 bookmarkEvents bookmarks per
        /\ forallb isAudio audio = true).
Proof.
  cbv zeta.
  destruct (pipeline_split env bookmarks s)
    as (summary & convs & evs0 & a & s2 & Hb & Ha & Hr & A0 & G0 & _).
  destruct (podcastAudio_audio env convs
              (mkState (trace s ++ evs0) (tempFile s)))
    as (evs1 & H1 & F1 & _).
  rewrite Ha in H1. cbn [snd trace] in H1. rewrite Hr. cbn [snd].
  destruct (audio_no_network _ F1) as [A1 G1].
  rewrite <- app_assoc in H1. rewrite (@since_eq _ _ _ H1).
  rewrite attemptsOf_app, geminiPrompts_app, length_app, A1, G1.
  cbn [List.length].
  split; [ exact H1 | ].
  split; [ lia | split; [ lia | split; [ lia | split ] ] ].
  - intros b acc s0.
    destruct (processBookmark_bookmarkEvents env b acc s0) as (evs & He & Hk).
    rewrite He. now rewrite since_app.
  - destruct (forBookmarks_per_bookmark env bookmarks (summaryHeader, []) s)
      as (per & Hs & Hf).
    rewrite Hb in Hs. cbn [snd] in Hs. inversion Hs as [E].
    apply app_inv_head in E. exists per, evs1. rewrite <- E.
    split; [ reflexivity | split; [ exact Hf | exact F1 ] ].
Qed.

(** Three bookmarks: one whose page is served at once, one that is skipped
    and one whose page cannot be fetched. *)
Lemma three_bookmarks_events :
  let a := lit "https://good.example/a" in
  let b := lit "https://bad.example/b" in
  let out := generateSummaryAndPodcast Sample.mixed
               [Sample.bm "https://good.example/a" "A";
                Sample.bm "ftp://files.example/c" "C";
                Sample.bm "https://bad.example/b" "B"] Sample.initial in
  exists prompt1 prompt2 audio,
    trace (snd out)
    = [EvGet a requestTimeout; EvGemini prompt1; EvGemini prompt2]
      ++ []
      ++ [EvGet b requestTimeout; EvSleep 1000; EvGet b requestTimeout;
          EvSleep 2000; EvGet b requestTimeout]
      ++ audio
    /\ forallb isAudio audio = true.
Proof.
  vm_compute. eexists. eexists. eexists. split; reflexivity.
Qed.

(** X9.  When no bookmark of the list is kept, in particular for the empty
    list, the run returns the bare header and no audio and does nothing
    else: no request is made and the state is left as it was. *)
Theorem nothing_kept_nothing_done (env : Env) (bookmarks : list Bookmark)
    (s : State) :
  kept bookmarks = [] ->
  generateSummaryAndPodcast env bookmarks s
  = (Ok (mkResult summaryHeader None (lit "podcast-audio")), s).
Proof.
  intros Hk.
  assert (H : forall acc, forBookmarks env bookmarks acc s = (Ok acc, s)).
  { induction bookmarks as [| b bs IH]; intros acc; [ reflexivity | ].
    unfold kept in Hk. cbn [flat_map] in Hk. fold (kept bs) in Hk.
    destruct (keptUrl b) as [u |] eqn:E; [ discriminate Hk | ].
    cbn [forBookmarks].
    rewrite (bind_ok _ _ _ (processBookmark_skip env b acc s E)).
    now apply IH. }
  unfold generateSummaryAndPodcast. rewrite (bind_ok _ _ _ (H _)).
  reflexivity.
Qed.

(** Two bookmarks, one without a URL and one with a relative path. *)
Lemma nothing_kept_nothing_done_example :
  generateSummaryAndPodcast Sample.offline
    [mkBookmark None (Some (lit "A folder")) None; Sample.bm "/local/page" "P"]
    Sample.initial
  = (Ok (mkResult summaryHeader None (lit "podcast-audio")), Sample.initial).
Proof.
  apply (nothing_kept_nothing_done Sample.offline
           [mkBookmark None (Some (lit "A folder")) None;
            Sample.bm "/local/page" "P"] Sample.initial).
  reflexivity.
Defined.

(** X10.  The synthesis requests of the audio stage are exactly those of
    the lines that are not blank, in order, up to the first such line
    without a colon, whether or not earlier requests were answered; and the
    audio collected is what the voice service returned for them. *)
Theorem synthesis_requests_follow_lines (env : Env) (lines : list jsstring)
    (acc : list bytes) (s : State) :
  let out := forLines env lines acc s in
  ttsCalls (since s (snd out)) = map requestFor (spokenLines lines)
  /\ tempFile (snd out) = tempFile s
  /\ (forall bufs, fst out = Ok bufs ->
        bufs = acc ++ synthesized env (now s) (since s (snd out))).
Proof.
  cbv zeta.
  destruct (forLines_requests env lines acc s) as (evs & Hs & _ & Hq & Hr).
  rewrite Hs. rewrite since_app. cbn [tempFile].
  split; [ exact Hq | split; [ reflexivity | exact Hr ] ].
Qed.

(** X11.  When a run returns audio, it is the concatenation, in request
    order, of the buffers the voice service returned for the synthesis
    requests of that run, of which there is at least one. *)
Theorem audio_is_what_was_synthesized (env : Env) (bookmarks : list Bookmark)
    (s s' : State) (r : PipelineResult) (d : bytes) :
  generateSummaryAndPodcast env bookmarks s = (Ok r, s') ->
  audioBuffer r = Some d ->
  d = List.concat (synthesized env (now s) (since s s'))
  /\ synthesized env (now s) (since s s') <> [].
Proof.
  intros Hrun Hd.
  destruct (pipeline_split env bookmarks s)
    as (summary & convs & evs0 & a & s2 & _ & Ha & Hr & _ & _ & F0).
  rewrite Hrun in Hr. inversion Hr; subst r s2. cbn [audioBuffer] in Hd.
  subst a.
  destruct (podcastAudio_audio env convs
              (mkState (trace s ++ evs0) (tempFile s)))
    as (evs1 & H1 & _ & Hp).
  rewrite Ha in H1, Hp. cbn [fst snd trace] in H1, Hp.
  destruct (Hp d eq_refl) as (Hc & Hne & _).
  rewrite <- app_assoc in H1. rewrite (@since_eq _ _ _ H1).
  rewrite synthesized_app,
    (synthesized_none env _ _ network_not_tts F0), <- now_app with (t := tempFile s).
  cbn [app]. split; assumption.
Qed.

(** X12.  When a run returns audio, the scratch file has been removed or,
    if removing it failed, still holds exactly that audio; without disk
    faults it has been removed. *)
Theorem scratch_file_is_cleaned_up (env : Env) (bookmarks : list Bookmark)
    (s s' : State) (r : PipelineResult) (d : bytes) :
  generateSummaryAndPodcast env bookmarks s = (Ok r, s') ->
  audioBuffer r = Some d ->
  (tempFile s' = None \/ tempFile s' = Some d)
  /\ ((forall t, diskFault env t = None) -> tempFile s' = None).
Proof.
  intros Hrun Hd.
  destruct (pipeline_split env bookmarks s)
    as (summary & convs & evs0 & a & s2 & _ & Ha & Hr & _).
  rewrite Hrun in Hr. inversion Hr; subst r s2. cbn [audioBuffer] in Hd.
  subst a.
  destruct (podcastAudio_audio env convs
              (mkState (trace s ++ evs0) (tempFile s)))
    as (evs1 & _ & _ & Hp).
  rewrite Ha in Hp. cbn [fst snd] in Hp.
  destruct (Hp d eq_refl) as (_ & _ & Hf & Hn). split; assumption.
Qed.

(** Two lines with a blank line between them; what follows the second colon
    of the last line is not requested. *)
Lemma synthesis_requests_follow_lines_example :
  let env := Sample.studio Sample.goodPage Sample.goodScript in
  let lines := [lit "Alex: Hello there"; lit "  "; lit "Sarah: Hi: welcome"] in
  ttsCalls (since Sample.initial (snd (forLines env lines [] Sample.initial)))
    = [(voiceAlex, lit "Hello there"); (voiceSarah, lit "Hi")]
  /\ fst (forLines env lines [] Sample.initial) = Ok [[Byte.x01]; [Byte.x02]].
Proof.
  cbv zeta.
  destruct (synthesis_requests_follow_lines
              (Sample.studio Sample.goodPage Sample.goodScript)
              [lit "Alex: Hello there"; lit "  "; lit "Sarah: Hi: welcome"]
              [] Sample.initial) as (Hq & _ & Hr).
  split; [ exact Hq | ].
  specialize (Hr [[Byte.x01]; [Byte.x02]]).
  vm_compute. reflexivity.
Defined.

(** The run of one good bookmark: two buffers of one byte each. *)
Lemma audio_is_what_was_synthesized_example :
  let env := Sample.studio Sample.goodPage Sample.goodScript in
  let out := generateSummaryAndPodcast env
               [Sample.bm "https://good.example/a" "A"] Sample.initial in
  [Byte.x01; Byte.x02]
  = List.concat (synthesized env 0 (since Sample.initial (snd out))).
Proof.
  cbv zeta.
  refine (proj1 (@audio_is_what_was_synthesized
                   (Sample.studio Sample.goodPage Sample.goodScript)
                   [Sample.bm "https://good.example/a" "A"] Sample.initial
                   _
                   (mkResult
                      (summaryHeader
                       ++ successFragment
                            (Sample.studio Sample.goodPage Sample.goodScript)
                            (Sample.bm "https://good.example/a" "A")
                            (lit "https://good.example/a") (lit "A")
                            (lit "A short summary."))
                      (Some [Byte.x01; Byte.x02]) (lit "podcast-audio"))
                   [Byte.x01; Byte.x02] _ eq_refl)).
  vm_compute. reflexivity.
Defined.

(** After that run no scratch file is left. *)
Lemma scratch_file_is_cleaned_up_example :
  let env := Sample.studio Sample.goodPage Sample.goodScript in
  tempFile (snd (generateSummaryAndPodcast env
                   [Sample.bm "https://good.example/a" "A"] Sample.initial))
  = None.
Proof.
  cbv zeta.
  refine (proj2 (@scratch_file_is_cleaned_up
                   (Sample.studio Sample.goodPage Sample.goodScript)
                   [Sample.bm "https://good.example/a" "A"] Sample.initial
                   _
                   (mkResult
                      (summaryHeader
                       ++ successFragment
                            (Sample.studio Sample.goodPage Sample.goodScript)
                            (Sample.bm "https://good.example/a" "A")
                            (lit "https://good.example/a") (lit "A")
                            (lit "A short summary."))
                      (Some [Byte.x01; Byte.x02]) (lit "podcast-audio"))
                   [Byte.x01; Byte.x02] _ eq_refl) (fun _ => eq_refl)).
  vm_compute. reflexivity.
Defined.

(** ** The plain-text body of the message *)

Lemma dropWhile_nil p s : dropWhile p s = [] -> forallb p s = true.
Proof.
  induction s as [| c t IH]; [ reflexivity | ]. cbn.
  destruct (p c); [ exact IH | discriminate ].
Qed.

Lemma forallb_dropWhile_nil p s : forallb p s = true -> dropWhile p s = [].
Proof.
  induction s as [| c t IH]; [ reflexivity | ]. cbn.
  destruct (p c); [ exact IH | discriminate ].
Qed.

Lemma length_dropWhile_tail p s c rest :
  dropWhile p s = c :: rest -> List.length rest < List.length s.
Proof.
  intros H. pose proof (length_dropWhile p s) as L. rewrite H in L.
  cbn in L. lia.
Qed.

(** Without a [>] nothing is a tag and the text is left as it is. *)
Lemma no_close_unchanged fuel : forall s,
  forallb (fun x => negb (x =? 62)%N) s = true ->
  replaceAllFrom Server.m_tag fuel s = s.
Proof.
  induction fuel as [| fuel IH]; intros s H; [ reflexivity | ].
  destruct s as [| c t]; [ reflexivity | ]. cbn [replaceAllFrom].
  cbn [forallb] in H. apply andb_prop in H as [_ Ht].
  assert (E : Server.m_tag (c :: t) = None).
  { unfold Server.m_tag. rewrite (forallb_dropWhile_nil _ _ Ht).
    now destruct (c =? 60)%N. }
  rewrite E. now rewrite (IH t Ht).
Qed.

Lemma stripped_tagFree fuel : forall s,
  List.length s <= fuel -> tagFree (replaceAllFrom Server.m_tag fuel s) = true.
Proof.
  induction fuel as [| fuel IH]; intros s Hl.
  - destruct s; [ reflexivity | cbn in Hl; lia ].
  - destruct s as [| c t]; [ reflexivity | ]. cbn [replaceAllFrom].
    destruct (c =? 60)%N eqn:Ec.
    + destruct (dropWhile (fun x => negb (x =? 62)%N) t) as [| g rest] eqn:Ed.
      * assert (E : Server.m_tag (c :: t) = None)
          by (unfold Server.m_tag; now rewrite Ec, Ed).
        rewrite E.
        apply dropWhile_nil in Ed. rewrite (no_close_unchanged fuel t Ed).
        unfold tagFree. cbn [dropWhile]. rewrite Ec. cbn [negb existsb].
        apply N.eqb_eq in Ec. subst c. cbn [N.eqb Pos.eqb orb].
        clear -Ed. induction t as [| x t IH]; [ reflexivity | ].
        cbn [forallb existsb] in *. apply andb_prop in Ed as [Hx Ht].
        destruct (x =? 62)%N; [ discriminate Hx | ]. now apply IH.
      * assert (E : Server.m_tag (c :: t) = Some ([], rest))
          by (unfold Server.m_tag; now rewrite Ec, Ed).
        rewrite E. cbn [app]. apply IH. apply length_dropWhile_tail in Ed.
        cbn in Hl. lia.
    + assert (E : Server.m_tag (c :: t) = None)
        by (unfold Server.m_tag; now rewrite Ec).
      rewrite E. unfold tagFree. cbn [dropWhile]. rewrite Ec. cbn [negb].
      apply IH. cbn in Hl. lia.
Qed.

Lemma stripTags_length html :
  List.length (Server.stripTags html) <= List.length html.
Proof.
  unfold Server.stripTags. apply replaceAll_length_le.
  intros x rep rest H. unfold Server.m_tag in H.
  destruct x as [| c t]; [ discriminate | ].
  destruct (c =? 60)%N; [| discriminate ].
  destruct (dropWhile (fun x => negb (x =? 62)%N) t) as [| g r] eqn:Ed;
    [ discriminate | ].
  inversion H; subst. apply length_dropWhile_tail in Ed. cbn. lia.
Qed.

(** X13.  The plain-text body of the message holds no tag: after the
    replacement no [>] follows a [<]; the text is never longer than the
    HTML, and HTML without any [>] is left unchanged. *)
Theorem plain_text_has_no_tag (html : jsstring) :
  tagFree (Server.stripTags html) = true
  /\ List.length (Server.stripTags html) <= List.length html
  /\ (forallb (fun c => negb (c =? 62)%N) html = true ->
      Server.stripTags html = html).
Proof.
  split; [| split ].
  - unfold Server.stripTags, replaceAll. now apply stripped_tagFree.
  - apply stripTags_length.
  - intros H. unfold Server.stripTags, replaceAll.
    now apply no_close_unchanged.
Qed.

(** An unclosed tag stays. *)
Lemma plain_text_has_no_tag_example :
  Server.stripTags (lit "1 < 2 and so on") = lit "1 < 2 and so on".
Proof.
  apply (proj2 (proj2 (plain_text_has_no_tag (lit "1 < 2 and so on")))).
  reflexivity.
Defined.

(** ** The handler of [POST /api/summary] *)

Lemma startsWith_app p x : startsWith p (p ++ x) = true.
Proof.
  induction p as [| c p IH]; [ reflexivity | ]. cbn.
  now rewrite N.eqb_refl, IH.
Qed.

(** The result of a run carries a summary that begins with the header. *)
Lemma summary_has_header env bs s :
  exists r s' rest,
    generateSummaryAndPodcast env bs s = (Ok r, s')
    /\ summary r = summaryHeader ++ rest.
Proof.
  destruct (forBookmarks_fragments env bs summaryHeader [] s)
    as (frags & convs & s1 & H & _).
  destruct (podcastAudio_total env convs s1) as (a & s2 & Ha).
  eexists. exists s2, (List.concat frags).
  rewrite (@generateSummaryAndPodcast_eq env _ _ _ _ _ _ _ H Ha).
  split; reflexivity.
Qed.

Lemma startsUp_brevo cfg :
  Server.startsUp cfg = true -> Server.given (Server.BREVO_API_KEY cfg) = true.
Proof.
  unfold Server.startsUp. intros H. apply andb_prop in H as [_ H].
  destruct (Server.given (Server.BREVO_API_KEY cfg)); [ reflexivity | ].
  discriminate H.
Qed.

(** X14.  A request without a recipient or without a non-empty array of
    bookmarks is answered with status 400, and a well-formed request to a
    server that lacks one of the three settings with status 500; in both
    cases nothing is fetched, generated or sent.  On a server that passed
    its start-up checks the missing setting is the sender address or the
    Gemini key, never the Brevo key. *)
Theorem rejected_request_has_no_effect (cfg : Server.Config) (env : Env)
    (brevo : Server.Brevo) (body : Server.Body) (s : State) :
  (validBody body = false ->
     exists error,
       Server.summaryRoute cfg env brevo body s
       = (Server.mkResponse 400 (Server.Failed error), [], s))
  /\ (validBody body = true -> configured cfg = false ->
      exists error,
        Server.summaryRoute cfg env brevo body s
        = (Server.mkResponse 500 (Server.Failed error), [], s)
        /\ (Server.startsUp cfg = true ->
            error = lit "Sender email is not configured"
            \/ error = lit "Gemini API key is not configured")).
Proof.
  unfold validBody, configured, Server.summaryRoute, Server.given.
  destruct (Server.email body) as [recipient |];
    [| split; [ intros _; eexists; reflexivity | discriminate ] ].
  destruct (truthy recipient); cbn [negb andb];
    [| split; [ intros _; eexists; reflexivity | discriminate ] ].
  destruct (Server.bookmarks body) as [| | [| b items]];
    try (split; [ intros _; eexists; reflexivity | discriminate ]).
  split; [ discriminate | ]. intros _ Hc.
  pose proof (startsUp_brevo cfg) as Hb. unfold Server.given in Hb.
  destruct (match Server.BREVO_API_KEY cfg with
            | Some x => truthy x | None => false end); cbn [negb andb] in *.
  - destruct (match Server.EMAIL_FROM cfg with
              | Some x => truthy x | None => false end); cbn [negb andb] in *.
    + rewrite Hc. cbn [negb].
      eexists. split; [ reflexivity | intros _; now right ].
    + eexists. split; [ reflexivity | intros _; now left ].
  - eexists. split; [ reflexivity | ]. intros H. specialize (Hb H).
    discriminate Hb.
Qed.

(** A request without bookmarks; and a server without a sender address. *)
Lemma rejected_request_has_no_effect_example :
  let cfg := Server.mkConfig (Some (lit "g")) (Some (lit "e"))
               (Some (lit "xkeysib-0123456789abcdef0123456789")) None in
  (exists error,
     Server.summaryRoute cfg Sample.offline (fun _ _ => inr tt)
       (Server.mkBody (Some (lit "me@example.org")) (Server.Items []))
       Sample.initial
     = (Server.mkResponse 400 (Server.Failed error), [], Sample.initial))
  /\ (exists error,
        Server.summaryRoute cfg Sample.offline (fun _ _ => inr tt)
          (Server.mkBody (Some (lit "me@example.org"))
             (Server.Items [Sample.bm "https://good.example/a" "A"]))
          Sample.initial
        = (Server.mkResponse 500 (Server.Failed error), [], Sample.initial)
        /\ error = lit "Sender email is not configured").
Proof.
  cbv zeta. split.
  - apply (proj1 (rejected_request_has_no_effect
                    (Server.mkConfig (Some (lit "g")) (Some (lit "e"))
                       (Some (lit "xkeysib-0123456789abcdef0123456789")) None)
                    Sample.offline (fun _ _ => inr tt)
                    (Server.mkBody (Some (lit "me@example.org"))
                       (Server.Items []))
                    Sample.initial)).
    reflexivity.
  - destruct (proj2 (rejected_request_has_no_effect
                       (Server.mkConfig (Some (lit "g")) (Some (lit "e"))
                          (Some (lit "xkeysib-0123456789abcdef0123456789"))
                          None)
                       Sample.offline (fun _ _ => inr tt)
                       (Server.mkBody (Some (lit "me@example.org"))
                          (Server.Items
                             [Sample.bm "https://good.example/a" "A"]))
                       Sample.initial) eq_refl eq_refl)
      as (error & H & Hs).
    exists error. split; [ exact H | ].
    destruct (Hs eq_refl) as [E | E]; [ exact E | ].
    rewrite E in H. vm_compute in H. discriminate H.
Defined.

(** X15.  A well-formed request to a configured server always runs the
    pipeline to its end and hands exactly one message to Brevo: addressed to
    the requester, with the summary document, which begins with the header,
    as HTML body, a tag-free text body, and an attachment exactly when the
    run returned audio.  The response is 200 when Brevo accepts the message
    and 500 with Brevo's error otherwise; failures inside the pipeline never
    fail the request. *)
Theorem accepted_request_sends_one_message (cfg : Server.Config) (env : Env)
    (brevo : Server.Brevo) (body : Server.Body) (s : State) :
  validBody body = true -> configured cfg = true ->
  exists recipient items r s1,
    Server.email body = Some recipient
    /\ Server.bookmarks body = Server.Items items
    /\ generateSummaryAndPodcast env items s = (Ok r, s1)
    /\ Server.summaryRoute cfg env brevo body s
       = (match brevo (now s1) (Server.buildMail cfg recipient r) with
          | inr _ =>
              Server.mkResponse 200
                (Server.Succeeded (lit "Summary and podcast sent successfully"))
          | inl brevoError => Server.serverError brevoError
          end,
          [Server.buildMail cfg recipient r], s1)
    /\ Server.to (Server.buildMail cfg recipient r) = [recipient]
    /\ Server.htmlContent (Server.buildMail cfg recipient r) = summary r
    /\ startsWith summaryHeader (summary r) = true
    /\ tagFree (Server.textContent (Server.buildMail cfg recipient r)) = true
    /\ (Server.attachment (Server.buildMail cfg recipient r) = None
        <-> audioBuffer r = None).
Proof.
  unfold validBody, configured, Server.given. intros Hv Hc.
  apply andb_prop in Hv as [He Hi].
  apply andb_prop in Hc as [Hc Hg]. apply andb_prop in Hc as [Hb Hf].
  destruct (Server.email body) as [recipient |] eqn:Ee; [| discriminate He ].
  destruct (Server.bookmarks body) as [| | [| b items]] eqn:Eb;
    try discriminate Hi.
  destruct (summary_has_header env (b :: items) s) as (r & s1 & rest & Hr & Hs).
  exists recipient, (b :: items), r, s1.
  split; [ reflexivity | split; [ reflexivity | split; [ exact Hr | ] ] ].
  split.
  - unfold Server.summaryRoute, Server.given. rewrite Ee, Eb, He, Hb, Hf, Hg.
    assert (Ht : truthy (summary r) = true) by (rewrite Hs; reflexivity).
    cbn [negb]. rewrite Hr, Ht. cbn [negb].
    destruct (brevo (now s1) (Server.buildMail cfg recipient r)); reflexivity.
  - split; [ reflexivity | split; [ reflexivity | split; [| split ] ] ].
    + rewrite Hs. apply startsWith_app.
    + cbn [Server.buildMail Server.textContent].
      unfold Server.stripTags, replaceAll. now apply stripped_tagFree.
    + cbn [Server.buildMail Server.attachment].
      destruct (audioBuffer r); split; intros H; try discriminate H;
        reflexivity.
Qed.

(** One good bookmark, everything in place: status 200 and one message with
    the audio attached. *)
Lemma accepted_request_sends_one_message_example :
  let env := Sample.studio Sample.goodPage Sample.goodScript in
  let body := Server.mkBody (Some (lit "me@example.org"))
                (Server.Items [Sample.bm "https://good.example/a" "A"]) in
  let out := Server.summaryRoute fullConfig env brevoAccepts body
               Sample.initial in
  Server.status (fst (fst out)) = 200
  /\ map Server.to (snd (fst out)) = [[lit "me@example.org"]]
  /\ map Server.attachment (snd (fst out))
     = [Some [Server.mkAttachment (lit "weekly-bookmark-podcast.mp3")
                (lit "AQI=")]].
Proof.
  cbv zeta.
  destruct (@accepted_request_sends_one_message fullConfig
              (Sample.studio Sample.goodPage Sample.goodScript) brevoAccepts
              (Server.mkBody (Some (lit "me@example.org"))
                 (Server.Items [Sample.bm "https://good.example/a" "A"]))
              Sample.initial eq_refl eq_refl)
    as (recipient & items & r & s1 & He & Hi & Hr & H & _).
  rewrite H. cbn [fst snd brevoAccepts Server.status map].
  cbn in He, Hi. inversion He; subst recipient. inversion Hi; subst items.
  split; [ reflexivity | split; [ reflexivity | ] ].
  vm_compute in Hr. inversion Hr; subst r s1. vm_compute. reflexivity.
Defined.

(** ** Speaker tags in the text sent to the voice service *)

Lemma upper_not_lower c : isUpper c = true -> isLower c = false.
Proof.
  unfold isUpper, isLower. intros H.
  destruct (N.leb_spec 65 c), (N.leb_spec c 90), (N.leb_spec 97 c),
    (N.leb_spec c 122); cbn in H |- *; try reflexivity; try discriminate H;
    exfalso; lia.
Qed.

Lemma lower_not_upper c : isLower c = true -> isUpper c = false.
Proof.
  intros H. destruct (isUpper c) eqn:E; [| reflexivity ].
  apply upper_not_lower in E. congruence.
Qed.

Lemma space_not_lower c : isSpace c = true -> isLower c = false.
Proof.
  intros H. destruct (isLower c) eqn:E; [| reflexivity ].
  unfold isLower in E. apply andb_prop in E as [E1 E2].
  apply N.leb_le in E1. apply N.leb_le in E2.
  assert (F : isSpace c = false).
  { unfold isSpace.
    repeat (apply orb_false_intro);
      try (apply N.eqb_neq; lia);
      apply andb_false_iff;
      first [ right; apply N.leb_gt; lia | left; apply N.leb_gt; lia ]. }
  congruence.
Qed.

Lemma space_not_colon c : isSpace c = true -> (c =? 58)%N = false.
Proof.
  intros H. destruct (N.eqb_spec c 58); [| reflexivity ].
  subst c. discriminate H.
Qed.

Lemma stop_cases c : isStop c = true -> c = 46%N \/ c = 33%N \/ c = 63%N.
Proof.
  unfold isStop. intros H. apply orb_prop in H as [H | H];
    [ apply orb_prop in H as [H | H] | ]; apply N.eqb_eq in H; auto.
Qed.

Lemma isName_cons u y :
  isName (u :: y)
  = isUpper u
    && match takeWhile isLower y with [] => false | _ :: _ => true end
    && colonNext y.
Proof.
  unfold isName, nameColon, colonNext. destruct (isUpper u); [| reflexivity ].
  destruct (takeWhile isLower y); destruct (dropWhile isLower y) as [| c r];
    cbn; try reflexivity.
  destruct (c =? 58)%N; reflexivity.
Qed.

Lemma isName_not_upper u y : isUpper u = false -> isName (u :: y) = false.
Proof. intros H. rewrite isName_cons, H. reflexivity. Qed.

Lemma hasName_nameColon s : hasName s = false -> nameColon s = None.
Proof.
  destruct s as [| c t]; [ reflexivity | ]. cbn [hasName]. intros H.
  apply orb_false_elim in H as [H _]. unfold isName in H.
  destruct (nameColon (c :: t)); [ discriminate H | reflexivity ].
Qed.

Lemma hasName_dropWhile p s : hasName s = false -> hasName (dropWhile p s) = false.
Proof.
  induction s as [| c t IH]; [ reflexivity | ]. intros H. cbn [dropWhile].
  destruct (p c); [| exact H ].
  cbn [hasName] in H. apply orb_false_elim in H as [_ H]. now apply IH.
Qed.

Lemma hasName_app_r a : forall x, hasName (a ++ x) = false -> hasName x = false.
Proof.
  induction a as [| c a IH]; intros x H; [ exact H | ].
  cbn [app hasName] in H. apply orb_false_elim in H as [_ H]. now apply IH.
Qed.

Lemma forallb_takeWhile p s : forallb p (takeWhile p s) = true.
Proof.
  induction s as [| c t IH]; [ reflexivity | ]. cbn.
  destruct (p c) eqn:E; [ cbn; now rewrite E | reflexivity ].
Qed.

Lemma takeWhile_lowers ls c z :
  forallb isLower ls = true -> isLower c = false ->
  takeWhile isLower (ls ++ c :: z) = ls
  /\ dropWhile isLower (ls ++ c :: z) = c :: z.
Proof.
  intros Hl Hc. split;
    [ now apply takeWhile_app_stop | now apply dropWhile_app_stop ].
Qed.

Lemma hasName_lowers ls : forall z,
  forallb isLower ls = true -> hasName (ls ++ z) = hasName z.
Proof.
  induction ls as [| c ls IH]; intros z H; [ reflexivity | ].
  cbn [forallb] in H. apply andb_prop in H as [Hc H].
  cbn [app hasName]. rewrite (@isName_not_upper c _ (@lower_not_upper c Hc)).
  now apply IH.
Qed.

(** A tag that is there stays there when text is appended. *)
Lemma colonNext_app x : forall b,
  colonNext x = true ->
  takeWhile isLower (x ++ b) = takeWhile isLower x
  /\ colonNext (x ++ b) = true.
Proof.
  unfold colonNext. induction x as [| c x IH]; intros b H; [ discriminate H | ].
  cbn [app takeWhile dropWhile] in *. destruct (isLower c).
  - destruct (IH b H) as [H1 H2]. now rewrite H1.
  - now split.
Qed.

Lemma hasName_app_l x : forall b, hasName (x ++ b) = false -> hasName x = false.
Proof.
  induction x as [| c x IH]; intros b H; [ reflexivity | ].
  cbn [app hasName] in *. apply orb_false_elim in H as [H1 H2].
  rewrite (IH b H2), orb_false_r.
  destruct (isName (c :: x)) eqn:E; [| reflexivity ].
  rewrite isName_cons in E, H1.
  apply andb_prop in E as [E Ec]. apply andb_prop in E as [Eu El].
  destruct (colonNext_app x b Ec) as [T C].
  rewrite T, C, Eu, El in H1. discriminate H1.
Qed.

Lemma nameColon_spec s name rest :
  nameColon s = Some (name, rest) ->
  exists u ls,
    s = u :: ls ++ 58%N :: rest /\ name = u :: ls
    /\ isUpper u = true /\ ls <> [] /\ forallb isLower ls = true.
Proof.
  destruct s as [| u t]; [ discriminate | ]. unfold nameColon.
  destruct (isUpper u) eqn:Eu; [| discriminate ].
  pose proof (takeWhile_dropWhile isLower t) as D.
  pose proof (forallb_takeWhile isLower t) as F.
  destruct (takeWhile isLower t) as [| l ls]; [ discriminate | ].
  destruct (dropWhile isLower t) as [| c r]; [ discriminate | ].
  destruct (N.eqb_spec c 58); [| discriminate ].
  intros H. inversion H; subst. exists u, (l :: ls).
  repeat split; try assumption; try discriminate.
Qed.

Section TagSafe.

Variable m : matcher.
Variable P : jsstring -> Prop.

(** A match starts at a character that is neither a small letter nor
    inside a tag, and puts a character of the same kind in its place. *)
Hypothesis head_safe : forall c t rep rest,
  m (c :: t) = Some (rep, rest) ->
  isLower c = false
  /\ List.length rest < List.length (c :: t)
  /\ exists h rep',
       rep = h :: rep' /\ isLower h = false /\ (h =? 58)%N = (c =? 58)%N.

Hypothesis match_safe : forall s rep rest,
  m s = Some (rep, rest) -> P s ->
  P rest
  /\ forall Y, takeWhile isLower Y = takeWhile isLower rest ->
               colonNext Y = colonNext rest ->
               hasName Y = false -> hasName (rep ++ Y) = false.

Hypothesis copy_safe : forall c t,
  m (c :: t) = None -> P (c :: t) -> isName (c :: t) = false /\ P t.

Lemma replaceAllFrom_keeps_lowers fuel : forall t,
  List.length t <= fuel ->
  takeWhile isLower (replaceAllFrom m fuel t) = takeWhile isLower t
  /\ colonNext (replaceAllFrom m fuel t) = colonNext t.
Proof.
  induction fuel as [| fuel IH]; intros t Hl; [ now split | ].
  destruct t as [| c t]; [ now split | ]. cbn [replaceAllFrom].
  destruct (m (c :: t)) as [[rep rest] |] eqn:E.
  - destruct (head_safe E) as (Hc & _ & h & rep' & -> & Hh & Hk).
    unfold colonNext. cbn [app takeWhile dropWhile]. rewrite Hc, Hh.
    now split.
  - unfold colonNext. cbn [takeWhile dropWhile].
    destruct (IH t ltac:(cbn in Hl; lia)) as [H1 H2].
    destruct (isLower c); [| now split ].
    rewrite H1. split; [ reflexivity | exact H2 ].
Qed.

Lemma replaceAllFrom_no_name fuel : forall s,
  List.length s <= fuel -> P s -> hasName (replaceAllFrom m fuel s) = false.
Proof.
  induction fuel as [| fuel IH]; intros s Hl HP.
  - destruct s; [ reflexivity | cbn in Hl; lia ].
  - destruct s as [| c t]; [ reflexivity | ]. cbn [replaceAllFrom].
    destruct (m (c :: t)) as [[rep rest] |] eqn:E.
    + destruct (head_safe E) as (_ & Hr & _).
      destruct (match_safe E HP) as [HPr HY].
      assert (Hf : List.length rest <= fuel) by (cbn in *; lia).
      destruct (@replaceAllFrom_keeps_lowers fuel rest Hf) as [H1 H2].
      apply HY; [ exact H1 | exact H2 | now apply IH ].
    + destruct (copy_safe E HP) as [Hn HPt].
      assert (Hf : List.length t <= fuel) by (cbn in Hl; lia).
      destruct (@replaceAllFrom_keeps_lowers fuel t Hf) as [H1 H2].
      cbn [hasName]. rewrite (IH t Hf HPt), orb_false_r.
      rewrite isName_cons in *. now rewrite H1, H2.
Qed.

End TagSafe.

Lemma name_colon_no_name s : hasName (replaceAll m_name_colon s) = false.
Proof.
  unfold replaceAll.
  apply (@replaceAllFrom_no_name m_name_colon (fun _ => True));
    [ | | | reflexivity | exact I ].
  - intros c t rep rest H. unfold m_name_colon in H.
    destruct (nameColon (c :: t)) as [[name r] |] eqn:E; [| discriminate H ].
    inversion H; subst rep rest.
    destruct (nameColon_spec _ E) as (u & ls & Hs & -> & Hu & _ & _).
    inversion Hs; subst c t.
    split; [ now apply upper_not_lower | split ].
    + cbn [List.length]. rewrite length_app. cbn [List.length]. lia.
    + exists u, (ls ++ [44%N]).
      split; [ reflexivity | split; [ now apply upper_not_lower | reflexivity ] ].
  - intros x rep rest H _. split; [ exact I | ]. intros Y _ _ HY.
    unfold m_name_colon in H.
    destruct (nameColon x) as [[name r] |] eqn:E; [| discriminate H ].
    inversion H; subst rep rest.
    destruct (nameColon_spec _ E) as (u & ls & _ & -> & Hu & _ & Hl).
    rewrite <- app_assoc. cbn [app hasName].
    rewrite (hasName_lowers ls (44%N :: Y) Hl). cbn [hasName].
    rewrite HY, (@isName_not_upper 44%N Y eq_refl), !orb_false_r.
    rewrite isName_cons.
    destruct (@takeWhile_lowers ls 44%N Y Hl eq_refl) as [T D].
    unfold colonNext. rewrite D. cbn. now rewrite !andb_false_r.
  - intros c t H _. split; [| exact I ]. unfold m_name_colon in H.
    unfold isName. destruct (nameColon (c :: t)) as [[? ?] |];
      [ discriminate H | reflexivity ].
Qed.

Lemma hasName_cons c t :
  hasName (c :: t) = false -> isName (c :: t) = false /\ hasName t = false.
Proof. cbn [hasName]. intros H. now apply orb_false_elim in H. Qed.

Lemma spaces_no_name s :
  hasName s = false -> hasName (replaceAll m_spaces s) = false.
Proof.
  intros Hs. unfold replaceAll.
  apply (@replaceAllFrom_no_name m_spaces (fun x => hasName x = false));
    [ | | | reflexivity | exact Hs ].
  - intros c t rep rest H.
    assert (Hc : isSpace c = true).
    { unfold m_spaces in H. destruct (isSpace c); [ reflexivity | discriminate H ]. }
    destruct (m_spaces_spec _ H) as (-> & Hl & _).
    split; [ now apply space_not_lower | split; [ exact Hl | ] ].
    exists SP, []. split; [ reflexivity | split; [ reflexivity | ] ].
    now rewrite (space_not_colon _ Hc).
  - intros x rep rest H Hx. destruct (m_spaces_spec _ H) as (-> & _ & ->).
    split; [ now apply hasName_dropWhile | ]. intros Y _ _ HY.
    cbn [app hasName]. now rewrite HY, (@isName_not_upper SP Y eq_refl).
  - intros c t _ H. now apply hasName_cons.
Qed.

Lemma m_stop_upper_spec c t rep rest :
  m_stop_upper (c :: t) = Some (rep, rest) ->
  isStop c = true
  /\ exists u, dropWhile isSpace t = u :: rest /\ isUpper u = true
               /\ rep = [c; LF; LF; u].
Proof.
  unfold m_stop_upper. destruct (isStop c); [| discriminate ].
  destruct (dropWhile isSpace t) as [| u r]; [ discriminate | ].
  destruct (isUpper u) eqn:E; [| discriminate ].
  intros H. inversion H; subst. split; [ reflexivity | ].
  exists u. repeat split. exact E.
Qed.

Lemma stop_upper_no_name s :
  hasName s = false -> hasName (replaceAll m_stop_upper s) = false.
Proof.
  intros Hs. unfold replaceAll.
  apply (@replaceAllFrom_no_name m_stop_upper (fun x => hasName x = false));
    [ | | | reflexivity | exact Hs ].
  - intros c t rep rest H.
    destruct (m_stop_upper_spec _ _ H) as (Hc & u & Hd & Hu & ->).
    split; [| split ].
    + destruct (stop_cases _ Hc) as [-> | [-> | ->]]; reflexivity.
    + apply length_dropWhile_tail in Hd. cbn [List.length]. lia.
    + exists c, [LF; LF; u]. repeat split.
      destruct (stop_cases _ Hc) as [-> | [-> | ->]]; reflexivity.
  - intros x rep rest H Hx. destruct x as [| c t]; [ discriminate H | ].
    destruct (m_stop_upper_spec _ _ H) as (Hc & u & Hd & Hu & ->).
    destruct (hasName_cons _ _ Hx) as [_ Ht].
    pose proof (hasName_dropWhile isSpace t Ht) as Hr. rewrite Hd in Hr.
    destruct (hasName_cons _ _ Hr) as [Hn Hrest].
    split; [ exact Hrest | ]. intros Y T C HY.
    cbn [app hasName]. rewrite HY.
    rewrite (@isName_not_upper LF (LF :: u :: Y) eq_refl).
    rewrite (@isName_not_upper LF (u :: Y) eq_refl).
    assert (Hup : isUpper c = false)
      by (destruct (stop_cases _ Hc) as [-> | [-> | ->]]; reflexivity).
    rewrite (@isName_not_upper c _ Hup). cbn [orb]. rewrite orb_false_r.
    rewrite isName_cons in *. now rewrite T, C.
  - intros c t _ H. now apply hasName_cons.
Qed.

(** Where no speaker tag is left, the last replacement finds nothing. *)
Lemma before_name_unchanged fuel : forall y,
  hasName y = false -> replaceAllFrom m_before_name fuel y = y.
Proof.
  induction fuel as [| fuel IH]; intros y H; [ reflexivity | ].
  destruct y as [| c t]; [ reflexivity | ]. cbn [replaceAllFrom].
  destruct (hasName_cons _ _ H) as [_ Ht].
  assert (E : m_before_name (c :: t) = None).
  { unfold m_before_name. destruct (isStop c); [ reflexivity | ].
    now rewrite (hasName_nameColon _ (hasName_dropWhile isSpace t Ht)). }
  rewrite E. now rewrite (IH t Ht).
Qed.

(** X16.  The text sent to the voice service holds no speaker tag: every
    capitalized name followed by a colon has become the name followed by a
    comma, so that the last of the six replacements of [generateSpeech]
    never changes anything. *)
Theorem no_speaker_tag_is_spoken (text : jsstring) :
  hasName (formatSpeechText text) = false
  /\ formatSpeechText text = trim (beforeLastReplace text).
Proof.
  assert (H : hasName (beforeLastReplace text) = false).
  { unfold beforeLastReplace.
    apply stop_upper_no_name, spaces_no_name, name_colon_no_name. }
  assert (E : formatSpeechText text = trim (beforeLastReplace text)).
  { unfold formatSpeechText. fold (beforeLastReplace text).
    unfold replaceAll at 1. now rewrite before_name_unchanged. }
  split; [| exact E ]. rewrite E.
  destruct (trim_middle (beforeLastReplace text)) as (a & b & M).
  rewrite M in H. apply hasName_app_r in H. now apply hasName_app_l in H.
Qed.

(** A line that quotes another speaker. *)
Lemma no_speaker_tag_is_spoken_example :
  formatSpeechText (lit "Well. Sarah: you said it! Alex: I did")
  = lit "Well." ++ [LF; LF] ++ lit "Sarah, you said it!" ++ [LF; LF]
    ++ lit "Alex, I did".
Proof. vm_compute. reflexivity. Qed.
